(** * news-summarizer: the article pipeline of [news.py]

    A shallow embedding of the class [NewsSummarizer] (URL validation, the
    fetch/extract retry loop, content-block selection, text normalisation, the
    two completion clients and the orchestrator [process_article]) together
    with the properties its specification states about it.

    Conventions of the embedding.
    - A Python [str] is a [string] whose characters are the code points below
      256 (Latin-1); [str.isspace], [str.lower] and the regular-expression
      classes are given exactly on that range.
    - A raised exception is a value of [exn]; a computation that may raise
      returns a [result].  [try]/[except] blocks are written with explicit
      handlers that test the class of the exception, clause by clause.
    - What the program cannot decide by itself (the answer of the HTTP server
      to each attempt, [urljoin], the completion endpoint) is a field of the
      record [world]; calls that the program makes on the outside ([GET],
      [sleep]) are recorded in a trace of [event]s.
    - A parsed page (the [BeautifulSoup] object) is a forest of [node]s; the
      CSS selection, [find_all] and [get_text] are defined on it. *)

From Stdlib Require Import String Ascii List ZArith NArith Bool Lia Arith.
From Stdlib Require QArith_base DecimalString.
Import ListNotations.
Open Scope string_scope.
Open Scope list_scope.
Set Warnings "-register-all".

(** ** Python strings *)

Module PyStr.

Definition code (c : ascii) : N := N_of_ascii c.

Definition between (lo hi n : N) : bool := (N.leb lo n && N.leb n hi)%bool.

(** [str.isspace] on one character: TAB..CR, FS..US, SPACE, NEL, NBSP.
    It is also what [\s] matches and what [split] and [strip] cut at. *)
Definition isspace (c : ascii) : bool :=
  let n := code c in
  (between 9 13 n || between 28 32 n || N.eqb n 133 || N.eqb n 160)%bool.

Definition is_ascii_upper (c : ascii) : bool := between 65 90 (code c).
Definition is_ascii_lower (c : ascii) : bool := between 97 122 (code c).
Definition is_ascii_alpha (c : ascii) : bool :=
  (is_ascii_upper c || is_ascii_lower c)%bool.
Definition is_digit (c : ascii) : bool := between 48 57 (code c).

(** [str.lower] on one character of the Latin-1 range. *)
Definition lower_char (c : ascii) : ascii :=
  let n := code c in
  if (between 65 90 n || (between 192 222 n && negb (N.eqb n 215)))%bool
  then ascii_of_N (n + 32) else c.

(** ASCII-only lower-casing (tag and attribute names in the selector engine). *)
Definition ascii_lower_char (c : ascii) : ascii :=
  if is_ascii_upper c then ascii_of_N (code c + 32) else c.

Fixpoint map_chars (f : ascii -> ascii) (s : string) : string :=
  match s with
  | EmptyString => EmptyString
  | String c s' => String (f c) (map_chars f s')
  end.

Definition lower (s : string) : string := map_chars lower_char s.
Definition ascii_lower (s : string) : string := map_chars ascii_lower_char s.

Definition is_empty (s : string) : bool :=
  match s with EmptyString => true | String _ _ => false end.

(** [sub in s] *)
Fixpoint contains (sub s : string) : bool :=
  (prefix sub s ||
   match s with
   | EmptyString => false
   | String _ s' => contains sub s'
   end)%bool.

Definition startswith (s p : string) : bool := prefix p s.

(** [c in s] for one character. *)
Fixpoint mem_char (c : ascii) (s : string) : bool :=
  match s with
  | EmptyString => false
  | String d s' => (Ascii.eqb c d || mem_char c s')%bool
  end.

Fixpoint forall_chars (p : ascii -> bool) (s : string) : bool :=
  match s with
  | EmptyString => true
  | String c s' => (p c && forall_chars p s')%bool
  end.

(** [s.split()]: the maximal runs of non-space characters, left to right. *)
Fixpoint split (s : string) : list string :=
  match s with
  | EmptyString => []
  | String c s' =>
      if isspace c then split s'
      else match s' with
           | EmptyString => [String c EmptyString]
           | String c' _ =>
               if isspace c' then String c EmptyString :: split s'
               else match split s' with
                    | w :: ws => String c w :: ws
                    | [] => [String c EmptyString]
                    end
           end
  end.

(** [sep.join(l)] *)
Fixpoint join (sep : string) (l : list string) : string :=
  match l with
  | [] => EmptyString
  | x :: xs =>
      match xs with
      | [] => x
      | _ :: _ => x ++ sep ++ join sep xs
      end
  end.

Fixpoint lstrip (s : string) : string :=
  match s with
  | EmptyString => EmptyString
  | String c s' => if isspace c then lstrip s' else s
  end.

Fixpoint rstrip (s : string) : string :=
  match s with
  | EmptyString => EmptyString
  | String c s' =>
      let r := rstrip s' in
      if (isspace c && is_empty r)%bool then EmptyString else String c r
  end.

(** [s.strip()] *)
Definition strip (s : string) : string := rstrip (lstrip s).

(** [re.sub(r"\s+", " ", s)]: every maximal run of space characters becomes
    one SPACE. *)
Fixpoint collapse_ws (s : string) : string :=
  match s with
  | EmptyString => EmptyString
  | String c s' =>
      if isspace c then
        match s' with
        | EmptyString => " "
        | String c' _ =>
            if isspace c' then collapse_ws s' else String " " (collapse_ws s')
        end
      else String c (collapse_ws s')
  end.

(** [l[:n]] for a Python integer [n]: a negative [n] counts from the end. *)
Definition slice_to {A} (n : Z) (l : list A) : list A :=
  if (0 <=? n)%Z then firstn (Z.to_nat n) l
  else firstn (List.length l - Z.to_nat (- n)) l.

(** [s[:n]] for [n >= 0]. *)
Fixpoint take (n : nat) (s : string) : string :=
  match n, s with
  | S n', String c s' => String c (take n' s')
  | _, _ => EmptyString
  end.

Fixpoint drop (n : nat) (s : string) : string :=
  match n, s with
  | S n', String _ s' => drop n' s'
  | _, _ => s
  end.

(** A word: non-empty and free of space characters. *)
Definition is_word_str (w : string) : bool :=
  (negb (is_empty w) && forall_chars (fun c => negb (isspace c)) w)%bool.

Definition head_nonspace (s : string) : bool :=
  match s with
  | String c _ => negb (isspace c)
  | EmptyString => false
  end.



End PyStr.

(** ** Exceptions and results *)

Module Py.

(** An exception value: [type(e).__name__], [str(e)], and the classes the
    [except] clauses of the program test it against.  Every value stands
    for an instance of [Exception]. *)
Record exn : Type := mk_exn {
  exn_name : string;
  exn_msg : string;
  is_ValueError : bool;          (* isinstance(e, ValueError) *)
  is_Timeout : bool;             (* isinstance(e, requests.Timeout) *)
  is_RequestException : bool     (* isinstance(e, requests.RequestException) *)
}.

Definition ValueError (msg : string) : exn := mk_exn "ValueError" msg true false false.
Definition TimeoutError (msg : string) : exn := mk_exn "TimeoutError" msg false false false.
Definition ConnectionError (msg : string) : exn := mk_exn "ConnectionError" msg false false false.
Definition IndexError (msg : string) : exn := mk_exn "IndexError" msg false false false.
Definition AttributeError (msg : string) : exn := mk_exn "AttributeError" msg false false false.

Inductive result (A : Type) : Type :=
| Ok (a : A)
| Raise (e : exn).
Arguments Ok {A} a.
Arguments Raise {A} e.

Definition bind {A B} (m : result A) (k : A -> result B) : result B :=
  match m with
  | Ok a => k a
  | Raise e => Raise e
  end.

(** [try: m  except Exception as e: h e] *)
Definition try_except {A} (m : result A) (h : exn -> result A) : result A :=
  match m with
  | Ok a => Ok a
  | Raise e => h e
  end.

(** A value stored in a result dictionary: a string or [None]. *)
Inductive value : Type :=
| Str (s : string)
| None_.

(** A dictionary with string keys, in insertion order. *)
Definition dict : Type := list (string * value).

Fixpoint get (k : string) (d : dict) : option value :=
  match d with
  | [] => None
  | (k', v) :: d' => if String.eqb k k' then Some v else get k d'
  end.

(** [k in d] *)
Definition has_key (k : string) (d : dict) : bool :=
  match get k d with Some _ => true | None => false end.

Definition of_option (o : option string) : value :=
  match o with Some s => Str s | None => None_ end.

End Py.

Declare Scope py_scope.
Delimit Scope py_scope with py.
Notation "x <- m ;; k" := (Py.bind m (fun x => k))
(at level 61, m at next level, right associativity) : py_scope.

(** ** Parsed pages *)

Module Dom.
Import PyStr.

(** A node of the parse tree: a text node ([NavigableString]) or a tag with
    its name, its attributes as written, and its children.  Names are as the
    parser leaves them (lower case). *)
Inductive node : Type :=
| Text (s : string)
| Element (tag : string) (attrs : list (string * string)) (children : list node).

(** The [BeautifulSoup] object: the top-level nodes of the page. *)
Definition soup : Type := list node.

(** The tag itself and the tags below it, in document order. *)
Fixpoint elements (n : node) : list node :=
  match n with
  | Text _ => []
  | Element _ _ ch => n :: flat_map elements ch
  end.

Definition children (n : node) : list node :=
  match n with
  | Text _ => []
  | Element _ _ ch => ch
  end.

(** The tags strictly below [n]. *)
Definition descendants (n : node) : list node := flat_map elements (children n).

Definition all_elements (doc : soup) : list node := flat_map elements doc.

Definition tag_of (n : node) : string :=
  match n with
  | Text _ => EmptyString
  | Element t _ _ => t
  end.

Fixpoint assoc (k : string) (l : list (string * string)) : option string :=
  match l with
  | [] => None
  | (k', v) :: l' => if String.eqb k k' then Some v else assoc k l'
  end.

(** [tag.attrs.get(name)] *)
Definition attr (name : string) (n : node) : option string :=
  match n with
  | Text _ => None
  | Element _ attrs _ => assoc name attrs
  end.

(** The tokens of the [class] attribute. *)
Definition classes (n : node) : list string :=
  match attr "class" n with
  | Some v => split v
  | None => []
  end.

Definition has_tag (name : string) (n : node) : bool :=
  match n with
  | Text _ => false
  | Element t _ _ => String.eqb t name
  end.

(** [tag.find_all(name)]: the tags below [n] with that name. *)
Definition find_all (name : string) (n : node) : list node :=
  filter (has_tag name) (descendants n).

(** [soup.find_all(name)] *)
Definition soup_find_all (name : string) (doc : soup) : list node :=
  filter (has_tag name) (all_elements doc).

(** [soup.find(name, **{k: v})]: the first tag of that name carrying the
    attribute values asked for. *)
Definition soup_find (name : string) (want : list (string * string)) (doc : soup)
  : option node :=
  find (fun n =>
          (has_tag name n &&
           forallb (fun kv => match attr (fst kv) n with
                              | Some v => String.eqb v (snd kv)
                              | None => false
                              end) want)%bool)
       (all_elements doc).

(** The text nodes below [n], in document order. *)
Fixpoint strings (n : node) : list string :=
  match n with
  | Text s => [s]
  | Element _ _ ch => flat_map strings ch
  end.

(** [tag.get_text(strip=True)]: every text node stripped, the empty ones
    dropped, the rest concatenated with nothing between them. *)
Definition get_text_strip (n : node) : string :=
  join "" (filter (fun s => negb (is_empty s)) (map strip (strings n))).

(** A compound selector [tag.class1.class2[attr="v"]]; each part optional. *)
Record compound : Type := mk_compound {
  sel_tag : option string;
  sel_classes : list string;
  sel_attrs : list (string * string)
}.

(** The selectors the program uses: one compound, or a compound below an
    ancestor matching another one ([a c], the descendant combinator). *)
Inductive selector : Type :=
| Compound (c : compound)
| Descendant (a c : compound).

Definition matches_compound (c : compound) (n : node) : bool :=
  match n with
  | Text _ => false
  | Element t _ _ =>
      (match sel_tag c with
       | Some name => String.eqb (ascii_lower t) name
       | None => true
       end
       && forallb (fun k => existsb (String.eqb k) (classes n)) (sel_classes c)
       && forallb (fun kv => match attr (fst kv) n with
                             | Some v => String.eqb v (snd kv)
                             | None => false
                             end) (sel_attrs c))%bool
  end.

Definition matches (sel : selector) (ancestors : list node) (n : node) : bool :=
  match sel with
  | Compound c => matches_compound c n
  | Descendant a c =>
      (matches_compound c n && existsb (matches_compound a) ancestors)%bool
  end.

Fixpoint select_in (sel : selector) (ancestors : list node) (n : node) : list node :=
  match n with
  | Text _ => []
  | Element _ _ ch =>
      (if matches sel ancestors n then [n] else [])
      ++ flat_map (select_in sel (n :: ancestors)) ch
  end.

(** [soup.select(selector)]: the matching tags in document order. *)
Definition select (sel : selector) (doc : soup) : list node :=
  flat_map (select_in sel []) doc.

Definition tag_sel (t : string) : compound := mk_compound (Some t) [] [].
Definition class_sel (c : string) : compound := mk_compound None [c] [].
Definition tag_class_sel (t c : string) : compound := mk_compound (Some t) [c] [].

End Dom.

(** ** URLs: [urlparse] and the URL pattern *)

Module Url.
Import PyStr Py.

(** The two components of [urlparse(url)] the program looks at. *)
Record parsed : Type := mk_parsed { scheme : string; netloc : string }.

Fixpoint lstrip_c0 (s : string) : string :=
  match s with
  | EmptyString => EmptyString
  | String c s' => if N.leb (code c) 32 then lstrip_c0 s' else s
  end.

Fixpoint remove_chars (bad : string) (s : string) : string :=
  match s with
  | EmptyString => EmptyString
  | String c s' =>
      if mem_char c bad then remove_chars bad s' else String c (remove_chars bad s')
  end.

(** The longest prefix of [s] made of characters outside [stop], and the rest. *)
Fixpoint span_until (stop : string) (s : string) : string * string :=
  match s with
  | EmptyString => (EmptyString, EmptyString)
  | String c s' =>
      if mem_char c stop then (EmptyString, s)
      else let (a, b) := span_until stop s' in (String c a, b)
  end.

Definition scheme_char (c : ascii) : bool :=
  (is_ascii_alpha c || is_digit c || mem_char c "+-.")%bool.

Definition tab_cr_lf : string :=
  String (ascii_of_N 9) (String (ascii_of_N 13) (String (ascii_of_N 10) EmptyString)).

(** [urlsplit]: leading C0 controls and spaces are dropped, TAB, CR and LF are
    removed everywhere; the text before the first [:] is the scheme when it
    starts with an ASCII letter and holds only scheme characters; after it, a
    leading [//] opens the network location, which runs to the first of
    [/ ? #].  A network location with one square bracket and not the other is
    refused with [ValueError]. *)
Definition urlparse (url : string) : result parsed :=
  let url := remove_chars tab_cr_lf (lstrip_c0 url) in
  let (before, after) := span_until ":" url in
  let (sch, rest) :=
    match before, after with
    | String c0 _, String _ after' =>
        if (is_ascii_alpha c0 && forall_chars scheme_char before)%bool
        then (lower before, after') else (EmptyString, url)
    | _, _ => (EmptyString, url)
    end in
  if prefix "//" rest then
    let loc := fst (span_until "/?#" (drop 2 rest)) in
    if xorb (mem_char "[" loc) (mem_char "]" loc)
    then Raise (ValueError "Invalid IPv6 URL")
    else Ok (mk_parsed sch loc)
  else Ok (mk_parsed sch EmptyString).

(** [all([result.scheme, result.netloc])], with [False] standing for the
    [except Exception: pass] around the first parse. *)
Definition has_scheme_and_netloc (r : result parsed) : bool :=
  match r with
  | Ok p => (negb (is_empty (scheme p)) && negb (is_empty (netloc p)))%bool
  | Raise _ => false
  end.

(** *** A backtracking matcher for the pattern's constructs *)

Inductive atom : Type :=
| Lit (c : ascii)                                  (* one character, case ignored *)
| Opt (s : string)                                 (* (s)?  greedy *)
| Rep (cls : ascii -> bool) (lo : nat) (hi : option nat)   (* [cls]{lo,hi}  greedy *)
| WordBoundary.                                    (* \b *)

Definition ci_eqb (x c : ascii) : bool := Ascii.eqb (lower_char x) (lower_char c).

Fixpoint ci_prefix (p s : string) : bool :=
  match p, s with
  | EmptyString, _ => true
  | String a p', String b s' => (ci_eqb b a && ci_prefix p' s')%bool
  | String _ _, EmptyString => false
  end.

Fixpoint count_class (cls : ascii -> bool) (s : string) : nat :=
  match s with
  | String c s' => if cls c then S (count_class cls s') else 0
  | EmptyString => 0
  end.

(** Some suffix of [s] starts with [p], case ignored. *)
Fixpoint ci_contains (p s : string) : bool :=
  (ci_prefix p s ||
   match s with
   | EmptyString => false
   | String _ s' => ci_contains p s'
   end)%bool.

(** [\w] on one character. *)
Definition is_word (c : ascii) : bool :=
  let n := code c in
  (is_ascii_alpha c || is_digit c || N.eqb n 95
   || N.eqb n 170 || N.eqb n 178 || N.eqb n 179 || N.eqb n 181 || N.eqb n 185
   || N.eqb n 186 || between 188 190 n
   || between 192 214 n || between 216 246 n || between 248 255 n)%bool.

Definition is_word_opt (o : option ascii) : bool :=
  match o with Some c => is_word c | None => false end.

Definition head_char (s : string) : option ascii :=
  match s with String c _ => Some c | EmptyString => None end.

(** The character just before position [j] of [s], [prev] standing before [s]. *)
Definition char_before (j : nat) (prev : option ascii) (s : string) : option ascii :=
  match j with
  | O => prev
  | S j' => String.get j' s
  end.

(** Greedy repetition: the continuation is tried after [k] characters, then
    [k-1], ... down to [lo]. *)
Fixpoint try_down (lo k : nat) (cont : nat -> option nat) : option nat :=
  if Nat.ltb k lo then None
  else match cont k with
       | Some r => Some r
       | None => match k with
                 | O => None
                 | S k' => try_down lo k' cont
                 end
       end.

(** A match of the atoms [p] at the start of [s]: the number of characters
    of the first match in backtracking order. *)
Fixpoint match_atoms (p : list atom) (prev : option ascii) (s : string) : option nat :=
  match p with
  | [] => Some 0
  | a :: p' =>
      match a with
      | Lit c =>
          match s with
          | String x s' =>
              if ci_eqb x c then option_map S (match_atoms p' (Some x) s') else None
          | EmptyString => None
          end
      | Opt lits =>
          let skip := match_atoms p' prev s in
          if ci_prefix lits s then
            let n := String.length lits in
            match match_atoms p' (char_before n prev s) (drop n s) with
            | Some m => Some (n + m)
            | None => skip
            end
          else skip
      | Rep cls lo hi =>
          let avail := count_class cls s in
          let k := match hi with Some h => Nat.min h avail | None => avail end in
          try_down lo k
            (fun j => option_map (Nat.add j)
                        (match_atoms p' (char_before j prev s) (drop j s)))
      | WordBoundary =>
          if Bool.eqb (is_word_opt prev) (is_word_opt (head_char s)) then None
          else match_atoms p' prev s
      end
  end.

(** [pattern.search(s)]: the leftmost match; [group(0)] of it. *)
Fixpoint search_from (p : list atom) (prev : option ascii) (s : string) : option string :=
  match match_atoms p prev s with
  | Some n => Some (take n s)
  | None =>
      match s with
      | EmptyString => None
      | String c s' => search_from p (Some c) s'
      end
  end.

Definition search (p : list atom) (s : string) : option string := search_from p None s.

Definition cls_domain (c : ascii) : bool :=
  (is_ascii_alpha c || is_digit c || mem_char c "-@:%._+~#=")%bool.
Definition cls_tld (c : ascii) : bool :=
  (is_ascii_alpha c || is_digit c || mem_char c "()")%bool.
Definition cls_path (c : ascii) : bool :=
  (is_ascii_alpha c || is_digit c || mem_char c "-()@:%_+.~#?&/=")%bool.

(** The pattern of [validate_url], compiled with [re.IGNORECASE]:
    the pieces, in order, are
      https?:\/\/   (www\.)?   [-a-zA-Z0-9@:%._\+~#=]{1,256}   \.
      [a-zA-Z0-9()]{1,6}   \b   ( [-a-zA-Z0-9()@:%_\+.~#?&//=]* )
    and only [group(0)] of a match is used. *)
Definition url_pattern : list atom :=
  [ Lit "h"; Lit "t"; Lit "t"; Lit "p"; Opt "s"; Lit ":"; Lit "/"; Lit "/";
    Opt "www.";
    Rep cls_domain 1 (Some 256); Lit ".";
    Rep cls_tld 1 (Some 6); WordBoundary;
    Rep cls_path 0 None ]%char.

End Url.

(** ** The outside world *)

Module World.
Import Py.

(** What the program does to the outside, in order. *)
Inductive event : Type :=
| GET (url : string) (timeout : Z)     (* one call session.get(url, timeout=...);
                                          the adapter's own retries happen inside it *)
| Sleep (seconds : Z).                 (* time.sleep(seconds) *)

(** [response.choices[i].message.content] *)
Record choice : Type := mk_choice { message_content : option string }.
Record response : Type := mk_response { choices : list choice }.

(** The arguments of [client.chat.completions.create]. *)
Record completion_request : Type := mk_request {
  req_model : string;
  req_system : string;        (* content of the system message *)
  req_user : string;          (* content of the user message *)
  req_temperature : QArith_base.Q;
  req_max_tokens : Z;
  req_top_p : QArith_base.Q
}.

(** The answers the program gets.  [http_get k url] is what the [k]-th pass
    of the retry loop obtains from [session.get], [raise_for_status] and the
    HTML parser together: the parsed page, or the exception raised. *)
Record world : Type := mk_world {
  http_get : nat -> string -> result Dom.soup;
  urljoin : string -> string -> result string;
  completions_create : completion_request -> result response
}.

End World.

(** ** The class [NewsSummarizer] *)

Module NewsSummarizer.
Import PyStr Py Dom Url World.
Local Open Scope py_scope.

Record self_t : Type := mk_self {
  model_name : string;
  request_timeout : Z;
  max_retries : Z;
  retry_delay : Z
}.

Definition default_model_name : string := "llama-3.3-70b-versatile".

Definition __init__ (api_key : string) (model : string) : result self_t :=
  if is_empty api_key then Raise (ValueError "API key is required.")
  else Ok (mk_self model 30 3 2).

(** *** [validate_url] *)

Definition validate_url (input_text : string) : result string :=
  if has_scheme_and_netloc (urlparse input_text) then Ok input_text
  else
    match search url_pattern input_text with
    | Some m =>
        let url :=
          if (startswith m "http://" || startswith m "https://")%bool then m
          else ("https://" ++ m)%string in
        match urlparse url with
        | Ok _ => Ok url     (* both ways out of the [try] return [url] *)
        | Raise _ => Raise (ValueError ("Invalid URL structure: " ++ url)%string)
        end
    | None => Raise (ValueError "Invalid input. Please provide a valid URL.")
    end.

(** *** [_extract_content] *)

Definition unwanted_keywords : list string :=
  ["advertisement"; "sponsored"; "copyright"; "related"; "disclaimer"].

Definition content_selectors : list selector :=
  [ Compound (tag_class_sel "div" "article-main");
    Descendant (tag_sel "article") (class_sel "article-body");
    Descendant (tag_sel "article") (class_sel "story-body");
    Compound (tag_class_sel "div" "article-body");
    Compound (tag_class_sel "div" "article-content");
    Compound (tag_class_sel "div" "content");
    Compound (tag_class_sel "div" "post-content");
    Compound (tag_sel "main");
    Compound (tag_sel "article");
    Compound (mk_compound (Some "div") [] [("role", "main")]);
    Compound (class_sel "article-text");
    Compound (class_sel "story-content") ].

(** The test on a paragraph's text: non-empty, more than [min_words] words,
    none of the keywords inside its lower-cased text. *)
Definition accepted (min_words : nat) (text : string) : bool :=
  (negb (is_empty text)
   && Nat.ltb min_words (List.length (split text))
   && negb (existsb (fun kw => contains kw (lower text)) unwanted_keywords))%bool.

(** The texts a [for p in paragraphs] loop appends. *)
Definition accepted_texts (min_words : nat) (paragraphs : list node) : list string :=
  filter (accepted min_words) (map get_text_strip paragraphs).

(** How a loop ends: by the [return] inside it, or by running out, in both
    cases with the current [article_text]. *)
Inductive loop_end : Type :=
| Returned (article_text : list string)
| Exhausted (article_text : list string).

(** [for content_block in content_blocks: ...] *)
Fixpoint blocks_loop (article_text : list string) (content_blocks : list node) : loop_end :=
  match content_blocks with
  | [] => Exhausted article_text
  | content_block :: rest =>
      let article_text := article_text ++ accepted_texts 5 (find_all "p" content_block) in
      match article_text with
      | _ :: _ => Returned article_text
      | [] => blocks_loop article_text rest
      end
  end.

(** [for selector in content_selectors: ...] *)
Fixpoint selectors_loop (article_text : list string) (selectors : list selector)
                        (doc : soup) : loop_end :=
  match selectors with
  | [] => Exhausted article_text
  | selector :: rest =>
      match blocks_loop article_text (select selector doc) with
      | Returned a => Returned a
      | Exhausted a => selectors_loop a rest doc
      end
  end.

Definition _extract_content (doc : soup) : list string :=
  match selectors_loop [] content_selectors doc with
  | Returned article_text => article_text
  | Exhausted article_text =>
      match article_text with
      | [] => article_text ++ accepted_texts 10 (soup_find_all "p" doc)
      | _ :: _ => article_text
      end
  end.

(** *** [extract_article_content] *)

Definition truthy (o : option string) : bool :=
  match o with
  | Some s => negb (is_empty s)
  | None => false
  end.

(** [urljoin(url, tag[key]) if tag and key in tag.attrs else None] *)
Definition joined_attr (w : world) (url : string) (tag : option node) (key : string)
  : result (option string) :=
  match tag with
  | Some t =>
      match attr key t with
      | Some v => u <- urljoin w url v ;; Ok (Some u)
      | None => Ok None
      end
  | None => Ok None
  end.

Definition main_image (w : world) (url : string) (doc : soup) : result (option string) :=
  img <- joined_attr w url (soup_find "meta" [("property", "og:image")] doc) "content" ;;
  if truthy img then Ok img
  else joined_attr w url (soup_find "img" [] doc) "src".

(** Lines 160-163: join, collapse white space, strip, keep [max_words] words. *)
Definition clean_text (article_text : list string) (max_words : Z) : string :=
  let clean_text := join " " article_text in
  let clean_text := strip (collapse_ws clean_text) in
  let clean_text_words := slice_to max_words (split clean_text) in
  join " " clean_text_words.

Definition str_of_Z (z : Z) : string :=
  DecimalString.NilZero.string_of_int (Z.to_int z).

(** How a pass through the loop body ends when nothing is raised out of it. *)
Inductive pass_end : Type :=
| Return (d : dict)
| Continue.

Definition last_attempt (self : self_t) (attempt : nat) : bool :=
  negb (Z.of_nat attempt <? max_retries self - 1)%Z.

(** The body of the [try], after [url = self.validate_url(url)]. *)
Definition try_body (self : self_t) (w : world) (attempt : nat) (url : string)
                    (max_words : Z) : list event * result pass_end :=
  let got := [GET url (request_timeout self)] in
  match http_get w attempt url with
  | Raise e => (got, Raise e)
  | Ok doc =>
      match main_image w url doc with
      | Raise e => (got, Raise e)
      | Ok image =>
          match _extract_content doc with
          | [] =>
              if last_attempt self attempt
              then (got, Raise (ValueError "No meaningful text could be extracted from the article."))
              else (got ++ [Sleep (retry_delay self)], Ok Continue)
          | article_text =>
              (got, Ok (Return [("text", Str (clean_text article_text max_words));
                                ("image", of_option image);
                                ("link", Str url)]))
          end
      end
  end.

(** The two [except] clauses, in order; any other exception goes on. *)
Definition except_clauses (self : self_t) (attempt : nat) (e : exn)
  : list event * result pass_end :=
  if is_Timeout e then
    if last_attempt self attempt
    then ([], Raise (TimeoutError ("Failed to fetch article after "
                                   ++ str_of_Z (max_retries self)
                                   ++ " attempts: Connection timeout")%string))
    else ([Sleep (retry_delay self)], Ok Continue)
  else if is_RequestException e then
    if last_attempt self attempt
    then ([], Raise (ConnectionError ("Failed to fetch article after "
                                      ++ str_of_Z (max_retries self)
                                      ++ " attempts: " ++ exn_msg e)%string))
    else ([Sleep (retry_delay self)], Ok Continue)
  else ([], Raise e).

(** One pass: the value of [url] after it, the events, and how it ends. *)
Definition loop_pass (self : self_t) (w : world) (attempt : nat) (url : string)
                     (max_words : Z) : string * (list event * result pass_end) :=
  match validate_url url with
  | Raise e => (url, except_clauses self attempt e)
  | Ok url' =>
      match try_body self w attempt url' max_words with
      | (evs, Raise e) =>
          let (evs', r) := except_clauses self attempt e in (url', (evs ++ evs', r))
      | (evs, Ok r) => (url', (evs, Ok r))
      end
  end.

(** [for attempt in range(self.max_retries)] with [remaining] passes to go,
    then the [return] after the loop. *)
Fixpoint attempts (self : self_t) (w : world) (remaining : nat) (attempt : nat)
                  (url : string) (max_words : Z) : list event * result dict :=
  match remaining with
  | O => ([], Ok [("error", Str "Failed to extract article content after all retries")])
  | S remaining' =>
      match loop_pass self w attempt url max_words with
      | (_, (evs, Raise e)) => (evs, Raise e)
      | (_, (evs, Ok (Return d))) => (evs, Ok d)
      | (url', (evs, Ok Continue)) =>
          let (evs', r) := attempts self w remaining' (S attempt) url' max_words in
          (evs ++ evs', r)
      end
  end.

Definition extract_article_content (self : self_t) (w : world) (url : string)
                                   (max_words : Z) : list event * result dict :=
  attempts self w (Z.to_nat (max_retries self)) 0 url max_words.

(** *** The completion clients *)

(** The two instruction templates, cut where the f-string puts [{text}]
    (characters outside ASCII stand as their UTF-8 bytes). *)
Definition summarize_prompt_head : string :=
"
        You are an AI expert in summarization. Generate a structured and precise summary of the given text, adhering to these guidelines:

        1. **Content**: Cover key details—Who, What, When, Where, Why, and How. Include essential events, dates, and entities. Exclude irrelevant or redundant information.
        2. **Structure**: 
        - **Introduction**: Brief topic overview.
        - **Key Points**: Major events or findings.
        - **Implications**: Broader impacts.
        - **Conclusion**: Final wrap-up.
        3. **Tone**: Neutral, factual, and professional. Use any provided quotes, stats, or references accurately.
        4. **Length**: Keep summaries between 300–800 words for long texts or proportionally shorter for brief inputs.

        ### Input Text:
        ".

Definition summarize_prompt_tail : string :=
"

        ### **Output Guidelines**  
        - Begin each section with a bolded heading.  
        - Use bullet points or numbered lists for concise details where appropriate.  
        - Ensure the summary is logically structured, easy to read, and complete.
        ".

Definition dedup_prompt_head : string :=
"
            You are an expert in text deduplication. Review the given text and perform the following tasks:

            ### **Deduplication Guidelines**

            1. **Redundancy Removal:**
            - Identify and remove completely repeated sentences or paragraphs
            - Keep the most concise and informative version of repeated content

            2. **Content Preservation:**
            - Maintain the original text's core meaning and key information
            - Do NOT reduce the overall length of the text unnecessarily
            - Only remove text that adds no additional value

            3. **Formatting:**
            - Preserve the original structure (paragraphs, headings)
            - Ensure smooth flow and readability after removing redundancies

            4. **Special Instructions:**
            - If no significant redundancies are found, return the original text EXACTLY as provided
            - Do not artificially shorten the text
            - Maintain a neutral, factual, and professional tone
            - Output must be in English

            5. **Mandatory Structure:**
            - Always create the output with two sections:
              - **Headline**: Provide an impactful summary headline that shows the most important information in it (20 - 50 words).
              - **Body**: Organize detailed paragraphs logically, retaining key information from the original text.
              - You must include both sections in the output.

            ### **Input Text:**
            ".

Definition dedup_prompt_tail : string :=
"
            ".

(** [response.choices[0].message.content.strip()] *)
Definition first_content_stripped (r : response) : result string :=
  match choices r with
  | [] => Raise (IndexError "list index out of range")
  | c :: _ =>
      match message_content c with
      | Some s => Ok (strip s)
      | None => Raise (AttributeError "'NoneType' object has no attribute 'strip'")
      end
  end.

Definition summarize_request (self : self_t) (text : string) (max_length : Z)
  : completion_request :=
  mk_request (model_name self)
             "You are a news summarization expert."
             (summarize_prompt_head ++ text ++ summarize_prompt_tail)
             (QArith_base.Qmake 3 10) (max_length * 2) (QArith_base.Qmake 1 1).

Definition summarize_text (self : self_t) (w : world) (text : string)
                          (min_length max_length : Z) : result string :=
  try_except
    (response <- completions_create w (summarize_request self text max_length) ;;
     first_content_stripped response)
    (fun e => Ok ("Error generating summary: " ++ exn_msg e)%string).

Definition dedup_request (self : self_t) (text : string) : completion_request :=
  mk_request (model_name self)
             "You are an expert in text deduplication and optimization."
             (dedup_prompt_head ++ text ++ dedup_prompt_tail)
             (QArith_base.Qmake 3 10) (Z.of_nat (String.length text) * 2)
             (QArith_base.Qmake 1 1).

Definition remove_redundancies (self : self_t) (w : world) (text : string)
  : result string :=
  try_except
    (response <- completions_create w (dedup_request self text) ;;
     deduplicated_text <- first_content_stripped response ;;
     if is_empty deduplicated_text then Ok text else Ok deduplicated_text)
    (fun e => Ok text).

(** *** [process_article] *)

(** [d[k]] *)
Definition getitem (k : string) (d : dict) : result value :=
  match get k d with
  | Some v => Ok v
  | None => Raise (mk_exn "KeyError" ("'" ++ k ++ "'") false false false)
  end.

(** [d.get(k)] *)
Definition get_or_none (k : string) (d : dict) : value :=
  match get k d with
  | Some v => v
  | None => None_
  end.

(** A value as an f-string prints it. *)
Definition format_value (v : value) : string :=
  match v with
  | Str s => s
  | None_ => "None"
  end.

(** The body of the [try] of [process_article]. *)
Definition process_article_try (self : self_t) (w : world) (input_text : string)
  : list event * result dict :=
  let (evs, r) := extract_article_content self w input_text 2900 in
  (evs,
   extraction_result <- r ;;
   if has_key "error" extraction_result then Ok extraction_result
   else
     text <- getitem "text" extraction_result ;;
     summary <- summarize_text self w (format_value text) 400 800 ;;
     Ok [("summary", Str summary);
         ("link", get_or_none "link" extraction_result);
         ("image", get_or_none "image" extraction_result)]).

Definition validation_error (ve : exn) : dict :=
  [("error", Str ("Validation error: " ++ exn_msg ve));
   ("processing_status", Str "failed");
   ("validation_method", Str "llm")].

Definition unexpected_error (e : exn) : dict :=
  [("error", Str ("Unexpected error during article processing: " ++ exn_msg e));
   ("processing_status", Str "failed");
   ("error_type", Str (exn_name e));
   ("validation_method", Str "llm")].

Definition process_article (self : self_t) (w : world) (input_text : string)
  : list event * result dict :=
  let (evs, r) := process_article_try self w input_text in
  (evs,
   try_except r
     (fun e => if is_ValueError e then Ok (validation_error e)
               else Ok (unexpected_error e))).

End NewsSummarizer.

(** ** The specification's wording of the body selection *)

Module Spec.
Import PyStr Py Dom NewsSummarizer.

(** The accepted paragraphs inside one matched element, in document order. *)
Definition block_texts (content_block : node) : list string :=
  accepted_texts 5 (find_all "p" content_block).

(** The accepted paragraphs inside every element a selector matches. *)
Definition selector_texts (sel : selector) (doc : soup) : list string :=
  flat_map block_texts (select sel doc).

(** The bare-paragraph fallback: every paragraph of the page, stricter count. *)
Definition fallback_texts (doc : soup) : list string :=
  accepted_texts 10 (soup_find_all "p" doc).


(** The first non-empty list of a sequence. *)
Fixpoint first_nonempty {A} (ls : list (list A)) : option (list A) :=
  match ls with
  | [] => None
  | l :: rest =>
      match l with
      | [] => first_nonempty rest
      | _ :: _ => Some l
      end
  end.

(** The texts of every matched element, selector by selector. *)
Definition candidate_blocks (doc : soup) : list (list string) :=
  flat_map (fun sel => map block_texts (select sel doc)) content_selectors.

End Spec.

(** ** Concrete pages, servers and endpoints *)

Module Scenario.
Import PyStr Py Dom World NewsSummarizer.

Definition paragraph (text : string) : node := Element "p" [] [Text text].
Definition div_class (c : string) (inside : list node) : node :=
  Element "div" [("class", c)] inside.

Definition lead_text : string :=
  "Markets rallied on Tuesday after the central bank held rates".
Definition second_text : string :=
  "Analysts had expected a cut of a quarter point".
Definition outside_text : string :=
  "Outside the article container sits a paragraph with many more words than ten".

(** An article container with one qualifying paragraph. *)
Definition page_with_article : soup :=
  [div_class "article-main" [paragraph lead_text]].

(** Two elements matched by [div.article-main], a qualifying paragraph in each. *)
Definition page_two_blocks : soup :=
  [div_class "article-main" [paragraph lead_text];
   div_class "article-main" [paragraph second_text]].



Definition the_summarizer : self_t := mk_self default_model_name 30 3 2.

Definition reply (content : string) : result response :=
  Ok (mk_response [mk_choice (Some content)]).

(** A world whose server answers every attempt alike and whose completion
    endpoint answers every request alike; [urljoin] of an absolute reference. *)
Definition world_of (page : result soup) (completion : result response) : world :=
  mk_world (fun _ _ => page) (fun _ ref => Ok ref) (fun _ => completion).

Definition read_timeout : exn :=
  mk_exn "ReadTimeout" "Read timed out. (read timeout=30)" false true true.
Definition connection_refused : exn :=
  mk_exn "ConnectionError" "Connection refused" false false true.
Definition rate_limited : exn :=
  mk_exn "RateLimitError" "Rate limit reached" false false false.

Definition article_url : string := "https://example.com/a".

(** 3000 one-letter words, one SPACE apart, as a single paragraph. *)
Fixpoint words_x (n : nat) : string :=
  match n with
  | O => EmptyString
  | S n' => String "x" (String " " (words_x n'))
  end.

End Scenario.

(** ** Reading a trace *)

Module Trace.
Import World.

Definition is_get (e : event) : bool :=
  match e with
  | GET _ _ => true
  | Sleep _ => false
  end.

(** The number of [session.get] calls, and of [sleep] calls. *)
Definition gets (evs : list event) : nat := List.length (filter is_get evs).
Definition sleeps (evs : list event) : nat :=
  List.length (filter (fun e => negb (is_get e)) evs).

(** Every request has the time-out [t]; a request is followed by nothing, or
    by one sleep of [d] seconds before anything else happens. *)
Fixpoint paced (t d : Z) (evs : list event) : bool :=
  match evs with
  | [] => true
  | GET _ t' :: rest =>
      (Z.eqb t' t &&
       match rest with
       | [] => true
       | Sleep d' :: rest' => (Z.eqb d' d && paced t d rest')%bool
       | GET _ _ :: _ => false
       end)%bool
  | Sleep _ :: _ => false
  end.

(** [k] failed passes, each a request and a sleep. *)
Fixpoint retries (url : string) (t d : Z) (k : nat) : list event :=
  match k with
  | O => []
  | S k' => GET url t :: Sleep d :: retries url t d k'
  end.

End Trace.

(** ** The endpoints of [main.py] *)

Module Main.
Import PyStr Py World NewsSummarizer.

(** The stored collection [db.articles]: its documents, oldest first.  A
    document is a dictionary; the [_id] the store adds plays no part here. *)
Definition collection : Type := list dict.

(** What the store's driver raises, when it does. *)
Inductive fault : Type :=
| PyMongoError (msg : string)
| OtherError (e : exn).

Definition fault_msg (f : fault) : string :=
  match f with
  | PyMongoError msg => msg
  | OtherError e => exn_msg e
  end.

(** The process environment of one request: [os.getenv("GROK_API_KEY")],
    whether each call on the store fails, and the text of the validation
    error the response model gives for a summary that is not a string. *)
Record env : Type := mk_env {
  GROK_API_KEY : option string;
  find_one_fault : option fault;
  insert_one_fault : option fault;
  delete_one_fault : option fault;
  validation_text : string
}.

(** How an endpoint ends. *)
Inductive outcome (A : Type) : Type :=
| Respond (a : A)
| HTTPException (status_code : Z) (detail : string)
| Uncaught (f : fault).
Arguments Respond {A} a.
Arguments HTTPException {A} status_code detail.
Arguments Uncaught {A} f.

(** The filter [{"url": u}]: the field [url] is the string [u]. *)
Definition has_url (u : string) (d : dict) : bool :=
  match get "url" d with
  | Some (Str v) => String.eqb v u
  | _ => false
  end.

(** [find_one({"url": u})], [insert_one(d)], [delete_one({"url": u})] with its
    [deleted_count]. *)
Definition find_one (db : collection) (u : string) : option dict := find (has_url u) db.

Definition insert_one (db : collection) (d : dict) : collection := db ++ [d].

Fixpoint delete_one (db : collection) (u : string) : collection * Z :=
  match db with
  | [] => ([], 0%Z)
  | d :: rest =>
      if has_url u d then (rest, 1%Z)
      else let (rest', n) := delete_one rest u in (d :: rest', n)
  end.

(** The URLs stored, in order. *)
Definition urls (db : collection) : list string :=
  flat_map (fun d => match get "url" d with
                     | Some (Str u) => [u]
                     | _ => []
                     end) db.

Record ArticleModel : Type := mk_article {
  url : string;
  summary : string;
  image : option string;
  link : string
}.

(** [ArticleModel(url=..., summary=..., image=..., link=...)]: [summary] must
    be a string, [image] may be [None]. *)
Definition new_ArticleModel (e : env) (u : string) (s i : value) (l : string)
  : result ArticleModel :=
  match s with
  | Str s' => Ok (mk_article u s' (match i with Str i' => Some i' | None_ => None end) l)
  | None_ => Raise (mk_exn "ValidationError" (validation_text e) false false false)
  end.

(** [d.get(k, default)] *)
Definition get_default (k : string) (default : value) (d : dict) : value :=
  match get k d with
  | Some v => v
  | None => default
  end.

(** [isinstance(e, (TimeoutError, ConnectionError))], the built-in classes. *)
Definition is_timeout_or_connection (e : exn) : bool :=
  existsb (String.eqb (exn_name e))
    ["TimeoutError"; "ConnectionError"; "BrokenPipeError"; "ConnectionAbortedError";
     "ConnectionRefusedError"; "ConnectionResetError"].

(** [NewsSummarizer(api_key=os.getenv("GROK_API_KEY"))]: an unset variable
    gives [None], which fails the test [not api_key] as the empty string does. *)
Definition summarizer_of (e : env) : result self_t :=
  __init__ (match GROK_API_KEY e with Some k => k | None => EmptyString end)
           default_model_name.

(** The body of the outer [try] of [save_article], from the store lookup on;
    [url_str] is [str(input_data.url)]. *)
Definition save_article_try (e : env) (w : world) (db : collection) (url_str : string)
  : list event * collection * outcome ArticleModel :=
  match find_one_fault e with
  | Some f => ([], db, Uncaught f)
  | None =>
      match find_one db url_str with
      | Some (_ :: _) =>
          ([], db, HTTPException 400 "Article with this URL already exists.")
      | _ =>
          match summarizer_of e with
          | Raise ex =>
              if is_ValueError ex
              then ([], db, HTTPException 500
                              ("Failed to initialize summarizer: " ++ exn_msg ex))
              else ([], db, Uncaught (OtherError ex))
          | Ok summarizer =>
              match process_article summarizer w url_str with
              | (evs, Raise ex) =>
                  if is_timeout_or_connection ex
                  then (evs, db, HTTPException 504 (exn_msg ex))
                  else if is_ValueError ex
                       then (evs, db, HTTPException 422 (exn_msg ex))
                       else (evs, db, Uncaught (OtherError ex))
              | (evs, Ok []) =>
                  (evs, db, HTTPException 400
                              "Failed to process article: empty result from summarizer")
              | (evs, Ok result) =>
                  match get "error" result with
                  | Some err =>
                      (evs, db, HTTPException 400
                                  ("Error processing article: " ++ format_value err))
                  | None =>
                      let document :=
                        [("url", Str url_str);
                         ("summary", get_default "summary" (Str "") result);
                         ("image", get_default "image" (Str "") result);
                         ("link", Str url_str)] in
                      match insert_one_fault e with
                      | Some (PyMongoError msg) =>
                          (evs, db, HTTPException 500 ("Database error: " ++ msg))
                      | Some f => (evs, db, Uncaught f)
                      | None =>
                          let db' := insert_one db document in
                          match new_ArticleModel e url_str
                                  (get_default "summary" (Str "") result)
                                  (get_default "image" (Str "") result) url_str with
                          | Ok a => (evs, db', Respond a)
                          | Raise ex => (evs, db', Uncaught (OtherError ex))
                          end
                      end
                  end
              end
          end
      end
  end.

(** [except HTTPException: raise] and [except Exception as e: raise
    HTTPException(500, ...)] around it. *)
Definition save_article (e : env) (w : world) (db : collection) (url_str : string)
  : list event * collection * outcome ArticleModel :=
  match save_article_try e w db url_str with
  | (evs, db', Uncaught f) =>
      (evs, db', HTTPException 500 ("An unexpected error occurred: " ++ fault_msg f))
  | other => other
  end.

(** [delete_article]: only [PyMongoError] is caught. *)
Definition delete_article (e : env) (db : collection) (u : string)
  : collection * outcome dict :=
  match delete_one_fault e with
  | Some (PyMongoError _) => (db, HTTPException 500 "Failed to delete article.")
  | Some f => (db, Uncaught f)
  | None =>
      let (db', deleted_count) := delete_one db u in
      if Z.eqb deleted_count 0 then (db', HTTPException 404 "Article not found.")
      else (db', Respond [("message", Str "Article deleted successfully.")])
  end.

End Main.

(** ** More pages, servers and environments *)

Module Cases.
Import PyStr Py Dom World NewsSummarizer Scenario Main.

(** A bare page: one long paragraph, outside every container. *)
Definition page_bare_paragraph : soup := [paragraph outside_text].

(** A server that times out on the first [n] attempts and then serves [page]. *)
Definition flaky_world (n : nat) (page : soup) (completion : result response) : world :=
  mk_world (fun k _ => if Nat.ltb k n then Raise read_timeout else Ok page)
           (fun _ ref => Ok ref) (fun _ => completion).

(** A parser failure: not a transport error. *)
Definition parser_crash : exn :=
  mk_exn "RecursionError" "maximum recursion depth exceeded" false false false.

(** An endpoint that answers deduplication requests with [other] and all
    other requests with [completion]. *)
Definition split_world (page : result soup) (completion other : result response) : world :=
  mk_world (fun _ _ => page) (fun _ ref => Ok ref)
           (fun req => if String.eqb (req_system req)
                            "You are an expert in text deduplication and optimization."
                       then other else completion).

Definition healthy_env : env :=
  mk_env (Some "gsk-key") None None None "1 validation error for ArticleModel".

Definition keyless_env : env :=
  mk_env None None None None "1 validation error for ArticleModel".

Definition stored (u s : string) : dict :=
  [("url", Str u); ("summary", Str s); ("image", None_); ("link", Str u)].

End Cases.

(** ** Passes the loop retries *)

Module Retry.
Import Py Dom World NewsSummarizer.

(** Pass [k] on the URL [u] fails in a way the loop retries: a transport
    error, or a page without a qualifying paragraph. *)
Definition retryable (w : world) (k : nat) (u : string) : Prop :=
  (exists e, http_get w k u = Raise e
             /\ (is_Timeout e || is_RequestException e)%bool = true)
  \/ (exists doc img, http_get w k u = Ok doc
                      /\ main_image w u doc = Ok img
                      /\ _extract_content doc = []).

(** How a pass that ends the loop ends the call. *)
Definition ends_with (r : result pass_end) (res : result dict) : Prop :=
  match r with
  | Ok (Return d) => res = Ok d
  | Ok Continue => False
  | Raise e => res = Raise e
  end.

End Retry.

(** ** The characters a pattern can match *)

Module Pattern.
Import PyStr Url.

(** Some character of [l] equals [x], case ignored. *)
Fixpoint ci_mem (x : ascii) (l : string) : bool :=
  match l with
  | EmptyString => false
  | String c l' => (ci_eqb x c || ci_mem x l')%bool
  end.

(** [x] can stand in a text matched by the atom. *)
Definition atom_admits (a : atom) (x : ascii) : bool :=
  match a with
  | Lit c => ci_eqb x c
  | Opt l => ci_mem x l
  | Rep cls _ _ => cls x
  | WordBoundary => false
  end.

Definition admits (p : list atom) (x : ascii) : bool :=
  existsb (fun a => atom_admits a x) p.

(** Neither square bracket. *)
Definition no_bracket (x : ascii) : bool := negb (mem_char x "[]").

End Pattern.
(** * Properties *)

(** ** Words of a string *)

Section Words.
Import PyStr.

Lemma split_cons (c : ascii) (s : string) :
  split (String c s) =
  if isspace c then split s
  else if head_nonspace s
       then match split s with
            | w :: ws => String c w :: ws
            | [] => [String c EmptyString]
            end
       else String c EmptyString :: split s.
Proof.
  simpl. destruct (isspace c); [reflexivity|].
  destruct s as [|c' s']; [reflexivity|].
  cbn [head_nonspace]. destruct (isspace c'); reflexivity.
Qed.

Lemma split_head_nonspace (s : string) :
  head_nonspace s = true -> split s <> [].
Proof.
  destruct s as [|c s]; [discriminate|]. cbn [head_nonspace]. intros H.
  rewrite split_cons. destruct (isspace c); [discriminate|].
  destruct (head_nonspace s); [destruct (split s)|]; discriminate.
Qed.

Lemma split_words (s : string) : Forall (fun w => is_word_str w = true) (split s).
Proof.
  induction s as [|c s IH]; [constructor|].
  rewrite split_cons. destruct (isspace c) eqn:Hc; [exact IH|].
  assert (Hw : forall w, forall_chars (fun c => negb (isspace c)) w = true ->
                         is_word_str (String c w) = true).
  { intros w Hall. unfold is_word_str. cbn. now rewrite Hc, Hall. }
  destruct (head_nonspace s).
  - destruct (split s) as [|w ws].
    + constructor; [now apply Hw|constructor].
    + inversion IH as [|? ? Hx Hxs]; subst. constructor; [|exact Hxs].
      apply Hw. unfold is_word_str in Hx. now apply andb_true_iff in Hx.
  - constructor; [now apply Hw|exact IH].
Qed.

Lemma collapse_ws_cons (c : ascii) (s : string) :
  collapse_ws (String c s) =
  if isspace c then
    match s with
    | EmptyString => " "
    | String c' _ => if isspace c' then collapse_ws s else String " " (collapse_ws s)
    end
  else String c (collapse_ws s).
Proof. reflexivity. Qed.

Lemma collapse_space_head (s : string) (c : ascii) :
  isspace c = true -> head_nonspace (collapse_ws (String c s)) = false.
Proof.
  revert c. induction s as [|d s IH]; intros c Hc; rewrite collapse_ws_cons, Hc.
  - reflexivity.
  - destruct (isspace d) eqn:Hd; [now apply IH|reflexivity].
Qed.

Lemma head_nonspace_collapse (s : string) :
  head_nonspace (collapse_ws s) = head_nonspace s.
Proof.
  destruct s as [|c s]; [reflexivity|]. destruct (isspace c) eqn:Hc.
  - rewrite collapse_space_head by exact Hc. cbn. now rewrite Hc.
  - cbn. now rewrite Hc; cbn; rewrite Hc.
Qed.

(** Collapsing runs of white space keeps the words. *)
Lemma split_collapse (s : string) : split (collapse_ws s) = split s.
Proof.
  induction s as [|c s IH]; [reflexivity|].
  cbn [collapse_ws]. destruct (isspace c) eqn:Hc.
  - rewrite (split_cons c s), Hc. destruct s as [|c' s]; [reflexivity|].
    destruct (isspace c'); [exact IH|].
    rewrite split_cons. exact IH.
  - rewrite (split_cons c (collapse_ws s)), (split_cons c s), Hc,
      head_nonspace_collapse, IH.
    reflexivity.
Qed.

Lemma split_lstrip (s : string) : split (lstrip s) = split s.
Proof.
  induction s as [|c s IH]; [reflexivity|].
  cbn [lstrip]. destruct (isspace c) eqn:Hc; [|reflexivity].
  now rewrite split_cons, Hc.
Qed.

Lemma head_nonspace_rstrip (s : string) :
  head_nonspace (rstrip s) = head_nonspace s.
Proof.
  destruct s as [|c s]; [reflexivity|]. cbn [rstrip head_nonspace].
  destruct (isspace c) eqn:Hc; cbn [andb].
  - destruct (is_empty (rstrip s)); cbn; [reflexivity|now rewrite Hc].
  - cbn. now rewrite Hc.
Qed.

Lemma split_rstrip (s : string) : split (rstrip s) = split s.
Proof.
  induction s as [|c s IH]; [reflexivity|].
  cbn [rstrip]. destruct (isspace c) eqn:Hc; cbn [andb].
  - destruct (rstrip s) as [|d r] eqn:Hr; cbn [is_empty].
    + rewrite split_cons, Hc, <- IH. reflexivity.
    + rewrite (split_cons c (String d r)), (split_cons c s), Hc. exact IH.
  - rewrite (split_cons c (rstrip s)), (split_cons c s), Hc, head_nonspace_rstrip, IH.
    reflexivity.
Qed.

Lemma split_strip (s : string) : split (strip s) = split s.
Proof. unfold strip. now rewrite split_rstrip, split_lstrip. Qed.

Lemma word_cons (c : ascii) (w : string) :
  is_word_str (String c w) = true ->
  isspace c = false /\ (w = EmptyString \/ (head_nonspace w = true /\ is_word_str w = true)).
Proof.
  unfold is_word_str. cbn. intros H. apply andb_true_iff in H as [Hc Hw].
  apply negb_true_iff in Hc. split; [exact Hc|].
  destruct w as [|d w]; [now left|right].
  cbn in Hw |- *. apply andb_true_iff in Hw as [Hd Hw]. now rewrite Hd, Hw.
Qed.

(** A word followed by a space character is the first word of the whole. *)
Lemma split_word_then_space (w : string) (sp : ascii) (r : string) :
  is_word_str w = true -> isspace sp = true ->
  split (w ++ String sp r) = w :: split r.
Proof.
  intros Hw Hsp. induction w as [|c w IH]; [discriminate|].
  apply word_cons in Hw as [Hc [->|[Hh Hw]]].
  - cbn [append]. rewrite split_cons, Hc. cbn [head_nonspace]. rewrite Hsp. cbn [negb].
    now rewrite split_cons, Hsp.
  - cbn [append]. rewrite split_cons, Hc.
    replace (head_nonspace (w ++ String sp r)) with true
      by (destruct w; [discriminate|exact (eq_sym Hh)]).
    now rewrite (IH Hw).
Qed.

Lemma split_word (w : string) : is_word_str w = true -> split w = [w].
Proof.
  intros Hw. induction w as [|c w IH]; [discriminate|].
  apply word_cons in Hw as [Hc [->|[Hh Hw]]].
  - cbn. now rewrite Hc.
  - rewrite split_cons, Hc, Hh. now rewrite (IH Hw).
Qed.

(** Splitting undoes joining words with one SPACE. *)
Lemma split_join (ws : list string) :
  Forall (fun w => is_word_str w = true) ws -> split (join " " ws) = ws.
Proof.
  induction 1 as [|w ws Hw Hws IH]; [reflexivity|].
  cbn [join]. destruct ws as [|w' ws'].
  - now apply split_word.
  - cbn [append]. rewrite split_word_then_space by (exact Hw || reflexivity).
    now rewrite IH.
Qed.

Lemma Forall_firstn {A} (P : A -> Prop) (n : nat) (l : list A) :
  Forall P l -> Forall P (firstn n l).
Proof.
  intros H. revert n. induction H; intros [|n]; cbn; constructor; auto.
Qed.

Lemma Forall_slice_to {A} (P : A -> Prop) (n : Z) (l : list A) :
  Forall P l -> Forall P (slice_to n l).
Proof. intros H. unfold slice_to. destruct (0 <=? n)%Z; now apply Forall_firstn. Qed.

End Words.

Section Normal_form.
Import PyStr.


Lemma forall_chars_app (p : ascii -> bool) (a b : string) :
  forall_chars p (a ++ b) = (forall_chars p a && forall_chars p b)%bool.
Proof.
  induction a as [|c a IH]; [reflexivity|]. cbn. rewrite IH. now rewrite andb_assoc.
Qed.

Lemma split_nil_iff (s : string) : split s = [] <-> forall_chars isspace s = true.
Proof.
  induction s as [|c s IH]; [now split|].
  rewrite split_cons. cbn [forall_chars]. destruct (isspace c); cbn [andb].
  - exact IH.
  - split; [|discriminate].
    destruct (head_nonspace s); [destruct (split s)|]; discriminate.
Qed.

Lemma all_space_join (ps : list string) :
  forall_chars isspace (join " " ps) = true ->
  Forall (fun p => forall_chars isspace p = true) ps.
Proof.
  induction ps as [|p ps IH]; [constructor|].
  cbn [join]. destruct ps as [|q ps].
  - intros H. constructor; [exact H|constructor].
  - rewrite forall_chars_app. intros H. apply andb_true_iff in H as [Hp H].
    cbn [append forall_chars] in H. apply andb_true_iff in H as [_ H].
    constructor; [exact Hp|now apply IH].
Qed.

(** A paragraph with a word gives the joined text a word. *)
Lemma split_join_nonempty (ps : list string) (p : string) :
  In p ps -> split p <> [] -> split (join " " ps) <> [].
Proof.
  intros Hin Hp Hnil. apply split_nil_iff, all_space_join in Hnil.
  rewrite Forall_forall in Hnil. apply Hp, split_nil_iff. now apply Hnil.
Qed.




Lemma slice_to_nonempty {A} (n : Z) (l : list A) :
  (0 < n)%Z -> l <> [] -> slice_to n l <> [].
Proof.
  intros Hn Hl. unfold slice_to. destruct (Z.leb_spec 0 n); [|lia].
  destruct (Z.to_nat n) eqn:E; [lia|]. destruct l; [congruence|discriminate].
Qed.

Lemma length_slice_to {A} (n : Z) (l : list A) :
  (0 <= n)%Z -> List.length (slice_to n l) = Nat.min (Z.to_nat n) (List.length l).
Proof.
  intros Hn. unfold slice_to. destruct (Z.leb_spec 0 n); [|lia]. apply length_firstn.
Qed.

End Normal_form.

(** ** The normaliser *)

Section Normaliser.
Import PyStr NewsSummarizer.

Lemma split_clean_text (article_text : list string) (max_words : Z) :
  split (clean_text article_text max_words)
  = slice_to max_words (split (join " " article_text)).
Proof.
  unfold clean_text. rewrite split_join.
  - now rewrite split_strip, split_collapse.
  - apply Forall_slice_to, split_words.
Qed.


Lemma clean_text_nonempty (article_text : list string) (max_words : Z) (p : string) :
  (0 < max_words)%Z -> In p article_text -> split p <> [] ->
  clean_text article_text max_words <> EmptyString.
Proof.
  intros Hn Hin Hp Hempty.
  assert (Hs : split (clean_text article_text max_words) <> []).
  { rewrite split_clean_text. apply slice_to_nonempty; [exact Hn|].
    now apply split_join_nonempty with p. }
  now rewrite Hempty in Hs.
Qed.


End Normaliser.

(** ** Body selection *)

Section Body_selection.
Import PyStr Py Dom NewsSummarizer Spec.

Lemma accepted_words (n : nat) (text : string) :
  accepted n text = true -> n < List.length (split text).
Proof.
  unfold accepted. intros H. apply andb_true_iff in H as [H _].
  apply andb_true_iff in H as [_ H]. now apply Nat.ltb_lt in H.
Qed.

Lemma accepted_texts_words (n : nat) (ps : list node) :
  Forall (fun t => n < List.length (split t)) (accepted_texts n ps).
Proof.
  unfold accepted_texts. apply Forall_forall. intros t Ht.
  apply filter_In in Ht as [_ Ht]. now apply accepted_words.
Qed.

Lemma flat_map_nil {A B} (f : A -> list B) (l : list A) :
  flat_map f l = [] <-> Forall (fun x => f x = []) l.
Proof.
  induction l as [|x l IH]; cbn.
  - split; constructor.
  - split.
    + intros H. apply app_eq_nil in H as [Hx Hl]. constructor; [exact Hx|now apply IH].
    + intros H. inversion H; subst. rewrite H2. now apply IH.
Qed.

(** The block loop entered with nothing collected: it returns the texts of
    the first block that has any, or runs out with nothing collected. *)
Lemma blocks_loop_spec (blocks : list node) :
  match blocks_loop [] blocks with
  | Returned a =>
      a <> [] /\
      exists pre b post, blocks = pre ++ b :: post
                         /\ Forall (fun b' => block_texts b' = []) pre
                         /\ a = block_texts b
  | Exhausted a => a = [] /\ Forall (fun b => block_texts b = []) blocks
  end.
Proof.
  induction blocks as [|b rest IH]; cbn [blocks_loop].
  - split; constructor.
  - cbn [app]. fold (block_texts b). destruct (block_texts b) as [|t ts] eqn:Hb.
    + destruct (blocks_loop [] rest) as [a|a].
      * destruct IH as [Ha (pre & b' & post & -> & Hpre & Hab)]. split; [exact Ha|].
        exists (b :: pre), b', post. repeat split; [|exact Hab].
        constructor; [exact Hb|exact Hpre].
      * destruct IH as [Ha Hall]. split; [exact Ha|]. constructor; [exact Hb|exact Hall].
    + split; [discriminate|]. exists [], b, rest. repeat split; [constructor|].
      now rewrite Hb.
Qed.

Lemma blocks_loop_first (blocks : list node) :
  blocks_loop [] blocks =
  match first_nonempty (map block_texts blocks) with
  | Some a => Returned a
  | None => Exhausted []
  end.
Proof.
  induction blocks as [|b rest IH]; [reflexivity|].
  cbn [blocks_loop map first_nonempty app]. fold (block_texts b).
  destruct (block_texts b); [exact IH|reflexivity].
Qed.

Lemma first_nonempty_app {A} (l1 l2 : list (list A)) :
  first_nonempty (l1 ++ l2) =
  match first_nonempty l1 with
  | Some a => Some a
  | None => first_nonempty l2
  end.
Proof.
  induction l1 as [|l l1 IH]; [reflexivity|]. cbn. destruct l; [exact IH|reflexivity].
Qed.

Lemma selectors_loop_first (selectors : list selector) (doc : soup) :
  selectors_loop [] selectors doc =
  match first_nonempty (flat_map (fun sel => map block_texts (select sel doc)) selectors) with
  | Some a => Returned a
  | None => Exhausted []
  end.
Proof.
  induction selectors as [|sel rest IH]; [reflexivity|].
  cbn [selectors_loop flat_map]. rewrite blocks_loop_first, first_nonempty_app.
  destruct (first_nonempty (map block_texts (select sel doc))); [reflexivity|exact IH].
Qed.

(** The code's selection, exactly: the texts of the first matched element
    (selectors in order, matches in document order) that has an accepted
    paragraph; the fallback when there is none. *)
Theorem extract_content_first_block (doc : soup) :
  _extract_content doc =
  match first_nonempty (candidate_blocks doc) with
  | Some a => a
  | None => fallback_texts doc
  end.
Proof.
  unfold _extract_content, candidate_blocks. rewrite selectors_loop_first.
  destruct (first_nonempty _); reflexivity.
Qed.

Lemma selectors_loop_spec (selectors : list selector) (doc : soup) :
  match selectors_loop [] selectors doc with
  | Returned a =>
      a <> [] /\
      exists pre sel post, selectors = pre ++ sel :: post
                           /\ Forall (fun s => selector_texts s doc = []) pre
                           /\ exists rest, selector_texts sel doc = a ++ rest
  | Exhausted a => a = [] /\ Forall (fun s => selector_texts s doc = []) selectors
  end.
Proof.
  induction selectors as [|sel rest IH]; cbn [selectors_loop].
  - split; constructor.
  - pose proof (blocks_loop_spec (select sel doc)) as Hb.
    destruct (blocks_loop [] (select sel doc)) as [a|a].
    + destruct Hb as [Ha (bpre & b & bpost & Hsel & Hpre & Hab)]. split; [exact Ha|].
      exists [], sel, rest. repeat split; [constructor|].
      exists (flat_map block_texts bpost). unfold selector_texts.
      rewrite Hsel, flat_map_app. cbn [flat_map].
      apply flat_map_nil in Hpre. now rewrite Hpre, Hab.
    + destruct Hb as [-> Hall].
      assert (Hnil : selector_texts sel doc = []) by now apply flat_map_nil.
      destruct (selectors_loop [] rest doc) as [a|a].
      * destruct IH as [Ha (pre & s & post & -> & Hpre & Hrest)]. split; [exact Ha|].
        exists (sel :: pre), s, post. repeat split; [|exact Hrest].
        constructor; [exact Hnil|exact Hpre].
      * destruct IH as [Ha Hall']. split; [exact Ha|]. constructor; [exact Hnil|exact Hall'].
Qed.


(** Every returned text has more than five words. *)
Lemma extract_content_words (doc : soup) :
  Forall (fun t => 5 < List.length (split t)) (_extract_content doc).
Proof.
  unfold _extract_content.
  pose proof (selectors_loop_spec content_selectors doc) as H.
  destruct (selectors_loop [] content_selectors doc) as [a|a].
  - destruct H as [_ (pre & sel & post & _ & _ & rest & Hrest)].
    assert (Hall : Forall (fun t => 5 < List.length (split t)) (selector_texts sel doc)).
    { unfold selector_texts. apply Forall_flat_map, Forall_forall. intros b _.
      apply accepted_texts_words. }
    rewrite Hrest in Hall. now apply Forall_app in Hall.
  - destruct H as [-> _]. cbn [app].
    eapply Forall_impl; [|apply (accepted_texts_words 10)]. cbn. intros; lia.
Qed.

End Body_selection.

(** ** The retry loop *)

Section Retry_loop.
Import PyStr Py Dom Url World NewsSummarizer.

Lemma init_default (api_key model : string) (self : self_t) :
  __init__ api_key model = Ok self -> self = mk_self model 30 3 2.
Proof.
  unfold __init__. destruct (is_empty api_key); [discriminate|]. now intros [= <-].
Qed.

(** A pass whose [GET] raises: the [except] clauses decide. *)
Lemma loop_pass_get_raises (self : self_t) (w : world) (k : nat) (url url' : string)
      (max_words : Z) (e : exn) :
  validate_url url = Ok url' ->
  http_get w k url' = Raise e ->
  loop_pass self w k url max_words =
  (url', ([GET url' (request_timeout self)] ++ fst (except_clauses self k e),
          snd (except_clauses self k e))).
Proof.
  intros Hurl Hget. unfold loop_pass, try_body. rewrite Hurl, Hget.
  now destruct (except_clauses self k e).
Qed.

Lemma except_clauses_retry (self : self_t) (k : nat) (e : exn) :
  (is_Timeout e || is_RequestException e)%bool = true ->
  last_attempt self k = false ->
  except_clauses self k e = ([Sleep (retry_delay self)], Ok Continue).
Proof.
  intros He Hk. unfold except_clauses. rewrite Hk.
  destruct (is_Timeout e); [reflexivity|]. cbn in He. now rewrite He.
Qed.

Lemma except_clauses_last (self : self_t) (k : nat) (e : exn) :
  (is_Timeout e || is_RequestException e)%bool = true ->
  last_attempt self k = true ->
  except_clauses self k e =
  ([], Raise (if is_Timeout e
              then TimeoutError ("Failed to fetch article after "
                                 ++ str_of_Z (max_retries self)
                                 ++ " attempts: Connection timeout")
              else ConnectionError ("Failed to fetch article after "
                                    ++ str_of_Z (max_retries self)
                                    ++ " attempts: " ++ exn_msg e))).
Proof.
  intros He Hk. unfold except_clauses. rewrite Hk.
  destruct (is_Timeout e); [reflexivity|]. cbn in He. now rewrite He.
Qed.

(** The [except] clauses never end a pass with [return]. *)
Lemma except_clauses_no_return (self : self_t) (k : nat) (e : exn) (d : dict) :
  snd (except_clauses self k e) <> Ok (Return d).
Proof.
  unfold except_clauses.
  destruct (is_Timeout e), (is_RequestException e), (last_attempt self k);
    cbn; discriminate.
Qed.

(** C5. With the settings [__init__] gives (3 attempts, 2 seconds between
    them, 30 seconds per request), for an argument from which the validator
    obtains the URL [url'] (the argument itself when it is a well-formed
    absolute URL) and gives [url'] back when it is validated again: when every
    [session.get] of [url'] fails with a transport error, exactly three are
    made, with a 2-second sleep between consecutive ones, and the call then
    raises [TimeoutError] if the last failure was a timeout (in particular
    when every attempt timed out) and [ConnectionError] otherwise. *)
Theorem fetch_retry_ceiling (api_key model : string) (self : self_t) (w : world)
        (url url' : string) (max_words : Z) :
  __init__ api_key model = Ok self ->
  validate_url url = Ok url' ->
  validate_url url' = Ok url' ->
  (forall k, k < 3 ->
     exists e, http_get w k url' = Raise e
               /\ (is_Timeout e || is_RequestException e)%bool = true) ->
  exists e_last,
    http_get w 2 url' = Raise e_last
    /\ extract_article_content self w url max_words =
       ([GET url' 30; Sleep 2; GET url' 30; Sleep 2; GET url' 30],
        Raise (if is_Timeout e_last
               then TimeoutError "Failed to fetch article after 3 attempts: Connection timeout"
               else ConnectionError ("Failed to fetch article after 3 attempts: "
                                     ++ exn_msg e_last))).
Proof.
  intros Hinit Hurl Hagain Hfail. apply init_default in Hinit. subst self.
  destruct (Hfail 0) as (e0 & G0 & R0); [lia|].
  destruct (Hfail 1) as (e1 & G1 & R1); [lia|].
  destruct (Hfail 2) as (e2 & G2 & R2); [lia|].
  exists e2. split; [exact G2|].
  unfold extract_article_content. cbn [max_retries].
  change (Z.to_nat 3) with 3. cbn [attempts].
  rewrite (loop_pass_get_raises _ _ _ _ _ _ _ Hurl G0),
          (except_clauses_retry (mk_self model 30 3 2) 0 e0 R0 eq_refl).
  cbn [fst snd app].
  rewrite (loop_pass_get_raises _ _ _ _ _ _ _ Hagain G1),
          (except_clauses_retry (mk_self model 30 3 2) 1 e1 R1 eq_refl).
  cbn [fst snd app].
  rewrite (loop_pass_get_raises _ _ _ _ _ _ _ Hagain G2),
          (except_clauses_last (mk_self model 30 3 2) 2 e2 R2 eq_refl).
  cbn [fst snd app request_timeout retry_delay max_retries].
  reflexivity.
Qed.

(** A pass over a reachable page with no qualifying paragraph. *)
Lemma loop_pass_no_content (self : self_t) (w : world) (k : nat) (url url' : string)
      (max_words : Z) (doc : soup) (img : option string) :
  validate_url url = Ok url' ->
  http_get w k url' = Ok doc ->
  main_image w url' doc = Ok img ->
  _extract_content doc = [] ->
  loop_pass self w k url max_words =
  (url',
   if last_attempt self k
   then ([GET url' (request_timeout self)],
         Raise (ValueError "No meaningful text could be extracted from the article."))
   else ([GET url' (request_timeout self); Sleep (retry_delay self)], Ok Continue)).
Proof.
  intros Hurl Hget Himg Hnone. unfold loop_pass, try_body.
  rewrite Hurl, Hget, Himg, Hnone.
  destruct (last_attempt self k); reflexivity.
Qed.

(** A pass that ends with [return] hands back a page's cleaned text. *)
Lemma loop_pass_return (self : self_t) (w : world) (k : nat) (url url' : string)
      (max_words : Z) (evs : list event) (d : dict) :
  loop_pass self w k url max_words = (url', (evs, Ok (Return d))) ->
  exists doc img,
    _extract_content doc <> []
    /\ d = [("text", Str (clean_text (_extract_content doc) max_words));
            ("image", of_option img); ("link", Str url')].
Proof.
  unfold loop_pass. destruct (validate_url url) as [u|e].
  - unfold try_body. destruct (http_get w k u) as [doc|e].
    + destruct (main_image w u doc) as [img|e].
      * destruct (_extract_content doc) as [|t ts] eqn:Hc.
        -- destruct (last_attempt self k).
           ++ pose proof (except_clauses_no_return self k
                (ValueError "No meaningful text could be extracted from the article.") d) as Hn.
              destruct (except_clauses self k _) as [evs' r]. cbn in Hn.
              intros [= _ _ ->]. now elim Hn.
           ++ discriminate.
        -- intros [= <- _ <-]. exists doc, img. rewrite Hc. split; [discriminate|reflexivity].
      * pose proof (except_clauses_no_return self k e d) as Hn.
        destruct (except_clauses self k e) as [evs' r]. cbn in Hn.
        intros [= _ _ ->]. now elim Hn.
    + pose proof (except_clauses_no_return self k e d) as Hn.
      destruct (except_clauses self k e) as [evs' r]. cbn in Hn.
      intros [= _ _ ->]. now elim Hn.
  - pose proof (except_clauses_no_return self k e d) as Hn.
    destruct (except_clauses self k e) as [evs' r]. cbn in Hn.
    intros [= _ _ ->]. now elim Hn.
Qed.

Lemma attempts_return (self : self_t) (w : world) (n k : nat) (url : string)
      (max_words : Z) (evs : list event) (d : dict) :
  attempts self w n k url max_words = (evs, Ok d) ->
  has_key "error" d = false ->
  exists doc img url',
    _extract_content doc <> []
    /\ d = [("text", Str (clean_text (_extract_content doc) max_words));
            ("image", of_option img); ("link", Str url')].
Proof.
  revert k url evs. induction n as [|n IH]; intros k url evs; cbn [attempts].
  - intros [= _ <-]. discriminate.
  - destruct (loop_pass self w k url max_words) as [url' [evs1 [[d1|]|e]]] eqn:Hpass.
    + intros [= _ <-] _. apply loop_pass_return in Hpass as (doc & img & Hc & Hd).
      now exists doc, img, url'.
    + destruct (attempts self w n (S k) url' max_words) as [evs2 r] eqn:Hrec.
      intros [= _ ->]. now apply (IH _ _ _ Hrec).
    + discriminate.
Qed.

(** C6, as amended.  For a positive word budget (the default 2900 included):
    a result of [extract_article_content] without the key [error] has a
    non-empty string under [text]. *)
Theorem extraction_text_nonempty (self : self_t) (w : world) (url : string)
        (max_words : Z) (evs : list event) (d : dict) :
  (0 < max_words)%Z ->
  extract_article_content self w url max_words = (evs, Ok d) ->
  has_key "error" d = false ->
  exists text, get "text" d = Some (Str text) /\ text <> EmptyString.
Proof.
  intros Hn Hres Hkey. unfold extract_article_content in Hres.
  apply attempts_return in Hres as (doc & img & url' & Hc & ->); [|exact Hkey].
  eexists. split; [reflexivity|].
  pose proof (extract_content_words doc) as Hw.
  destruct (_extract_content doc) as [|t ts]; [congruence|].
  inversion Hw as [|? ? Ht _]; subst.
  apply clean_text_nonempty with t; [exact Hn|now left|].
  destruct (split t); [cbn in Ht; lia|discriminate].
Qed.

End Retry_loop.

(** ** The completion clients *)

Section Clients.
Import PyStr Py World NewsSummarizer.

(** C7. When the completion call of [remove_redundancies] raises, the
    function returns its input text itself, and raises nothing. *)
Theorem remove_redundancies_fallback (self : self_t) (w : world) (text : string)
        (e : exn) :
  completions_create w (dedup_request self text) = Raise e ->
  remove_redundancies self w text = Ok text.
Proof. intros H. unfold remove_redundancies. now rewrite H. Qed.

(** C10. When the completion call of [remove_redundancies] succeeds and the
    content of its first choice is empty once stripped, the function returns
    the input text, not the empty string. *)
Theorem remove_redundancies_empty_reply (self : self_t) (w : world) (text : string)
        (r : response) (c : choice) (rest : list choice) (content : string) :
  completions_create w (dedup_request self text) = Ok r ->
  choices r = c :: rest ->
  message_content c = Some content ->
  strip content = EmptyString ->
  remove_redundancies self w text = Ok text.
Proof.
  intros Hcall Hch Hc Hs. unfold remove_redundancies, first_content_stripped.
  rewrite Hcall. cbn [bind try_except]. now rewrite Hch, Hc, Hs.
Qed.


End Clients.

(** ** The orchestrator *)

Section Orchestrator.
Import PyStr Py Dom Url World NewsSummarizer.

(** C4. [process_article] returns a dictionary for every input and every
    behaviour of the outside world; an exception that leaves the body of its
    [try] and is not a [ValueError] is reported with the keys [error],
    [processing_status] = "failed", [error_type] = the name of the exception's
    class, and [validation_method] = "llm". *)
Theorem process_article_never_raises (self : self_t) (w : world) (input_text : string) :
  exists d,
    snd (process_article self w input_text) = Ok d
    /\ (forall e,
          snd (process_article_try self w input_text) = Raise e ->
          is_ValueError e = false ->
          d = [("error", Str ("Unexpected error during article processing: " ++ exn_msg e));
               ("processing_status", Str "failed");
               ("error_type", Str (exn_name e));
               ("validation_method", Str "llm")]).
Proof.
  unfold process_article.
  destruct (process_article_try self w input_text) as [evs [d|e]]; cbn [snd try_except].
  - exists d. split; [reflexivity|discriminate].
  - destruct (is_ValueError e) eqn:Hv; eexists; (split; [reflexivity|]).
    + intros e' [= <-]. congruence.
    + now intros e' [= <-] _.
Qed.



End Orchestrator.

(** ** Worked scenarios *)

Section Scenarios.
Import PyStr Py Dom Url World NewsSummarizer Spec Scenario.

(** C3 at a schemeless URL embedded in prose: the pattern requires
    [http://] or [https://], finds nothing, and the input is refused. *)
Theorem validate_url_schemeless_refused :
  search url_pattern "see www.example.com/news please" = None
  /\ validate_url "see www.example.com/news please"
     = Raise (ValueError "Invalid input. Please provide a valid URL.")
  /\ validate_url "www.example.com/news"
     = Raise (ValueError "Invalid input. Please provide a valid URL.").
Proof. repeat split; vm_compute; reflexivity. Qed.

Lemma fetch_retry_ceiling_always_timeout :
  exists e_last,
    http_get (world_of (Raise read_timeout) (reply "unused")) 2 article_url = Raise e_last
    /\ extract_article_content the_summarizer
         (world_of (Raise read_timeout) (reply "unused"))
         "read https://example.com/a today" 2900 =
       ([GET article_url 30; Sleep 2; GET article_url 30; Sleep 2; GET article_url 30],
        Raise (if is_Timeout e_last
               then TimeoutError "Failed to fetch article after 3 attempts: Connection timeout"
               else ConnectionError ("Failed to fetch article after 3 attempts: "
                                     ++ exn_msg e_last))).
Proof.
  apply (fetch_retry_ceiling "gsk-key" default_model_name).
  - reflexivity.
  - vm_compute; reflexivity.
  - vm_compute; reflexivity.
  - intros k _. exists read_timeout. split; reflexivity.
Defined.

Example fetch_retry_ceiling_connection_refused :
  extract_article_content the_summarizer
    (world_of (Raise connection_refused) (reply "unused")) article_url 2900 =
  ([GET article_url 30; Sleep 2; GET article_url 30; Sleep 2; GET article_url 30],
   Raise (ConnectionError "Failed to fetch article after 3 attempts: Connection refused")).
Proof. vm_compute; reflexivity. Qed.




(** Two elements match [div.article-main], each with an accepted paragraph:
    the code returns the first element's paragraph only. *)
Example body_selection_stops_at_first_block :
  selector_texts (Compound (tag_class_sel "div" "article-main")) page_two_blocks
    = [lead_text; second_text]
  /\ _extract_content page_two_blocks = [lead_text].
Proof. split; vm_compute; reflexivity. Qed.

Lemma extraction_text_nonempty_here :
  exists text,
    get "text" [("text", Str lead_text); ("image", None_); ("link", Str article_url)]
    = Some (Str text)
    /\ text <> EmptyString.
Proof.
  apply (extraction_text_nonempty the_summarizer
           (world_of (Ok page_with_article) (reply "unused")) article_url 2900
           [GET article_url 30]).
  - lia.
  - vm_compute; reflexivity.
  - reflexivity.
Defined.

(** C6 as stated fails: with a word budget of 0 the call succeeds (no key
    [error]) and the text is empty. *)
Lemma extraction_text_empty_at_zero_budget :
  exists evs d,
    extract_article_content the_summarizer
      (world_of (Ok page_with_article) (reply "unused")) article_url 0 = (evs, Ok d)
    /\ has_key "error" d = false
    /\ get "text" d = Some (Str EmptyString).
Proof. do 2 eexists. repeat split; vm_compute; reflexivity. Qed.

Lemma remove_redundancies_fallback_here :
  remove_redundancies the_summarizer
    (world_of (Ok page_with_article) (Raise rate_limited)) lead_text = Ok lead_text.
Proof.
  apply (remove_redundancies_fallback the_summarizer
           (world_of (Ok page_with_article) (Raise rate_limited)) lead_text rate_limited).
  reflexivity.
Defined.

Lemma remove_redundancies_empty_reply_here :
  remove_redundancies the_summarizer
    (world_of (Ok page_with_article) (reply "   ")) lead_text = Ok lead_text.
Proof.
  apply (remove_redundancies_empty_reply the_summarizer
           (world_of (Ok page_with_article) (reply "   ")) lead_text
           (mk_response [mk_choice (Some "   ")]) (mk_choice (Some "   ")) [] "   ");
    reflexivity.
Defined.

(** 3000 words in, 2900 words out. *)
Example normalizer_3000_words :
  List.length (split (join " " [words_x 3000])) = 3000
  /\ List.length (split (clean_text [words_x 3000] 2900)) = 2900.
Proof. split; vm_compute; reflexivity. Qed.

(** The orchestrator's success scenario. *)
Example process_article_success :
  process_article the_summarizer
    (world_of (Ok page_with_article) (reply " A summary. ")) article_url
  = ([GET article_url 30],
     Ok [("summary", Str "A summary."); ("link", Str article_url); ("image", None_)]).
Proof. vm_compute; reflexivity. Qed.

End Scenarios.

(** ** Further properties of the validator *)

Section Validator.
Import PyStr Py Url NewsSummarizer.

Lemma match_lit (c : ascii) (p : list atom) (prev : option ascii) (s : string) (n : nat) :
  match_atoms (Lit c :: p) prev s = Some n ->
  exists x s' m, s = String x s' /\ ci_eqb x c = true
                 /\ match_atoms p (Some x) s' = Some m /\ n = S m.
Proof.
  cbn [match_atoms]. destruct s as [|x s']; [discriminate|].
  destruct (ci_eqb x c) eqn:Hx; [|discriminate].
  destruct (match_atoms p (Some x) s') as [m|] eqn:Hm; [|discriminate].
  intros [= <-]. now exists x, s', m.
Qed.

Lemma match_opt (l : string) (p : list atom) (prev : option ascii) (s : string) (n : nat) :
  match_atoms (Opt l :: p) prev s = Some n ->
  (ci_prefix l s = true
   /\ exists m, match_atoms p (char_before (String.length l) prev s)
                            (drop (String.length l) s) = Some m
                /\ n = String.length l + m)
  \/ match_atoms p prev s = Some n.
Proof.
  cbn [match_atoms]. destruct (ci_prefix l s) eqn:Hl; [|now right].
  destruct (match_atoms p _ (drop (String.length l) s)) as [m|] eqn:Hm; [|now right].
  intros [= <-]. left. split; [reflexivity|]. now exists m.
Qed.

(** Where the pattern matches, the text starts with [http://] or [https://]. *)
Lemma url_pattern_match_scheme (prev : option ascii) (s : string) (n : nat) :
  match_atoms url_pattern prev s = Some n ->
  (ci_prefix "http://" s || ci_prefix "https://" s)%bool = true.
Proof.
  unfold url_pattern. intros H.
  apply match_lit in H as (x1 & s1 & n1 & -> & E1 & H & ->).
  apply match_lit in H as (x2 & s2 & n2 & -> & E2 & H & ->).
  apply match_lit in H as (x3 & s3 & n3 & -> & E3 & H & ->).
  apply match_lit in H as (x4 & s4 & n4 & -> & E4 & H & ->).
  cbn [ci_prefix]. rewrite E1, E2, E3, E4. cbn [andb].
  apply match_opt in H as [[Hs (m & H & ->)]|H].
  - destruct s4 as [|x5 s5]; [discriminate|]. cbn [ci_prefix] in Hs.
    rewrite andb_true_r in Hs. cbn [String.length drop char_before] in H.
    apply match_lit in H as (x6 & s6 & n6 & -> & E6 & H & ->).
    apply match_lit in H as (x7 & s7 & n7 & -> & E7 & H & ->).
    apply match_lit in H as (x8 & s8 & n8 & -> & E8 & H & ->).
    cbn [ci_prefix]. rewrite Hs, E6, E7, E8. cbn. apply orb_true_r.
  - apply match_lit in H as (x6 & s6 & n6 & -> & E6 & H & ->).
    apply match_lit in H as (x7 & s7 & n7 & -> & E7 & H & ->).
    apply match_lit in H as (x8 & s8 & n8 & -> & E8 & H & ->).
    cbn [ci_prefix]. now rewrite E6, E7, E8.
Qed.

Lemma ci_contains_here (p s : string) :
  ci_prefix p s = true -> ci_contains p s = true.
Proof. intros H. destruct s; cbn [ci_contains]; now rewrite H. Qed.

Lemma ci_contains_later (p : string) (c : ascii) (s : string) :
  ci_contains p s = true -> ci_contains p (String c s) = true.
Proof. intros H. cbn [ci_contains]. rewrite H. apply orb_true_r. Qed.

Lemma search_from_scheme (prev : option ascii) (s m : string) :
  search_from url_pattern prev s = Some m ->
  (ci_contains "http://" s || ci_contains "https://" s)%bool = true.
Proof.
  revert prev. induction s as [|c s IH]; intros prev; cbn [search_from].
  - destruct (match_atoms url_pattern prev EmptyString) as [n|] eqn:Hm; [|discriminate].
    intros _. apply url_pattern_match_scheme in Hm. discriminate.
  - destruct (match_atoms url_pattern prev (String c s)) as [n|] eqn:Hm.
    + intros _. apply url_pattern_match_scheme in Hm.
      apply orb_true_iff in Hm as [Hm|Hm]; apply orb_true_iff;
        [left|right]; now apply ci_contains_here.
    + intros H. apply IH in H.
      apply orb_true_iff in H as [H|H]; apply orb_true_iff;
        [left|right]; now apply ci_contains_later.
Qed.

(** An input that is not itself an absolute URL and in which no [http://] or
    [https://] occurs (in any letter case) is refused, whatever else it
    holds: a schemeless URL is never found, and never repaired. *)
Theorem validate_url_needs_scheme (input_text : string) :
  has_scheme_and_netloc (urlparse input_text) = false ->
  ci_contains "http://" input_text = false ->
  ci_contains "https://" input_text = false ->
  validate_url input_text = Raise (ValueError "Invalid input. Please provide a valid URL.").
Proof.
  intros Hparse H1 H2. unfold validate_url. rewrite Hparse.
  destruct (search url_pattern input_text) as [m|] eqn:Hs; [|reflexivity].
  apply search_from_scheme in Hs. rewrite H1, H2 in Hs. discriminate.
Qed.

Lemma validate_url_needs_scheme_here :
  validate_url "our story is at www.example.com/news this week"
  = Raise (ValueError "Invalid input. Please provide a valid URL.").
Proof.
  apply validate_url_needs_scheme; vm_compute; reflexivity.
Defined.



(** A URL inside prose is cut out exactly; prose without one is refused. *)
Example validate_url_extracts :
  validate_url "check this out: http://example.com/a?x=1 thanks"
    = Ok "http://example.com/a?x=1"
  /\ validate_url "hello world"
     = Raise (ValueError "Invalid input. Please provide a valid URL.").
Proof. split; vm_compute; reflexivity. Qed.

End Validator.

(** ** Further properties of the pipeline *)

Section Pipeline.
Import PyStr Py Dom Url World NewsSummarizer Spec Scenario.

Lemma except_clauses_last_raises (self : self_t) (k : nat) (e : exn) :
  last_attempt self k = true -> exists e', snd (except_clauses self k e) = Raise e'.
Proof.
  intros Hk. unfold except_clauses. rewrite Hk.
  destruct (is_Timeout e), (is_RequestException e); cbn; now eexists.
Qed.

(** The last pass never ends with [continue]. *)
Lemma loop_pass_last (self : self_t) (w : world) (k : nat) (url url' : string)
      (max_words : Z) (evs : list event) :
  last_attempt self k = true ->
  loop_pass self w k url max_words <> (url', (evs, Ok Continue)).
Proof.
  intros Hk. unfold loop_pass, try_body.
  assert (Hex : forall e u evs0,
            (let (evs', r) := except_clauses self k e in (u, (evs0 ++ evs', r)))
            <> (url', (evs, Ok Continue))).
  { intros e u evs0. destruct (except_clauses_last_raises self k e Hk) as [e' He'].
    destruct (except_clauses self k e) as [evs' r]. cbn in He'. subst r. discriminate. }
  destruct (validate_url url) as [u|e].
  - destruct (http_get w k u) as [doc|e]; [|apply Hex].
    destruct (main_image w u doc) as [img|e]; [|apply Hex].
    destruct (_extract_content doc); [|discriminate].
    rewrite Hk. apply Hex.
  - destruct (except_clauses_last_raises self k e Hk) as [e' He'].
    destruct (except_clauses self k e) as [evs' r]. cbn in He'. subst r. discriminate.
Qed.

Lemma attempts_ok_shape (self : self_t) (w : world) (n k : nat) (url : string)
      (max_words : Z) (evs : list event) (d : dict) :
  (Z.of_nat k + Z.of_nat n = max_retries self)%Z -> 1 <= n ->
  attempts self w n k url max_words = (evs, Ok d) ->
  exists doc img url',
    _extract_content doc <> []
    /\ d = [("text", Str (clean_text (_extract_content doc) max_words));
            ("image", of_option img); ("link", Str url')].
Proof.
  revert k url evs. induction n as [|n IH]; intros k url evs Hsum Hn; [lia|].
  cbn [attempts].
  destruct (loop_pass self w k url max_words) as [url' [evs1 [[d1|]|e]]] eqn:Hpass.
  - intros [= _ <-]. apply loop_pass_return in Hpass as (doc & img & Hc & Hd).
    now exists doc, img, url'.
  - destruct n as [|n].
    + exfalso. apply (loop_pass_last self w k url url' max_words evs1); [|exact Hpass].
      unfold last_attempt. apply negb_true_iff, Z.ltb_ge. lia.
    + destruct (attempts self w (S n) (S k) url' max_words) as [evs2 r] eqn:Hrec.
      intros [= _ ->]. apply (IH (S k) url' evs2); [lia|lia|exact Hrec].
  - discriminate.
Qed.

(** With at least one attempt configured, [extract_article_content] never
    returns the object [{"error": ...}] of its last line: a call that does
    not raise returns the keys [text], [image] and [link], nothing else. *)
Theorem extraction_error_object_unreachable (self : self_t) (w : world)
        (url : string) (max_words : Z) (evs : list event) (d : dict) :
  (1 <= max_retries self)%Z ->
  extract_article_content self w url max_words = (evs, Ok d) ->
  has_key "error" d = false
  /\ exists text image link,
       d = [("text", Str text); ("image", image); ("link", Str link)].
Proof.
  intros Hmax Hres. unfold extract_article_content in Hres.
  apply attempts_ok_shape in Hres as (doc & img & url' & _ & ->); [|lia|lia].
  split; [reflexivity|]. now do 3 eexists.
Qed.

Lemma extraction_error_object_unreachable_here :
  has_key "error" [("text", Str lead_text); ("image", None_); ("link", Str article_url)]
    = false
  /\ exists text image link,
       [("text", Str lead_text); ("image", None_); ("link", Str article_url)]
       = [("text", Str text); ("image", image); ("link", Str link)].
Proof.
  apply (extraction_error_object_unreachable the_summarizer
           (world_of (Ok page_with_article) (reply "unused")) article_url 2900
           [GET article_url 30]).
  - cbn. lia.
  - vm_compute; reflexivity.
Defined.


Example sponsored_paragraph_refused :
  accepted 5 "Sponsored content here, more than five words" = false
  /\ accepted 5 "Only five words right here" = false
  /\ accepted 5 "Exactly six plain words right here" = true
  /\ accepted 10 "Exactly six plain words right here" = false.
Proof. repeat split; vm_compute; reflexivity. Qed.

(** The success path: the validated URL is fetched once, and the result holds
    the stripped reply as [summary], the validated URL as [link], and the
    resolved image. *)
Theorem process_article_success_path (api_key model : string) (self : self_t)
        (w : world) (input_text url' : string) (doc : soup) (img : option string)
        (r : response) (c : choice) (rest : list choice) (content : string) :
  __init__ api_key model = Ok self ->
  validate_url input_text = Ok url' ->
  http_get w 0 url' = Ok doc ->
  main_image w url' doc = Ok img ->
  _extract_content doc <> [] ->
  completions_create w
    (summarize_request self (clean_text (_extract_content doc) 2900) 800) = Ok r ->
  choices r = c :: rest ->
  message_content c = Some content ->
  process_article self w input_text
  = ([GET url' 30],
     Ok [("summary", Str (strip content)); ("link", Str url'); ("image", of_option img)]).
Proof.
  intros Hinit Hurl Hget Himg Hc Hcall Hch Hcontent.
  apply init_default in Hinit. subst self.
  unfold process_article, process_article_try, extract_article_content.
  cbn [max_retries]. change (Z.to_nat 3) with 3. cbn [attempts].
  unfold loop_pass, try_body. rewrite Hurl, Hget, Himg.
  destruct (_extract_content doc) as [|t ts] eqn:Hd; [congruence|].
  cbn [request_timeout bind has_key get String.eqb Ascii.eqb Bool.eqb getitem format_value].
  unfold summarize_text. rewrite Hcall. cbn [bind]. unfold first_content_stripped.
  rewrite Hch, Hcontent. reflexivity.
Qed.

Lemma process_article_success_path_here :
  process_article the_summarizer
    (world_of (Ok page_with_article) (reply " A summary. "))
    "worth reading: https://example.com/a"
  = ([GET article_url 30],
     Ok [("summary", Str (strip " A summary. ")); ("link", Str article_url);
         ("image", of_option None)]).
Proof.
  apply (process_article_success_path "gsk-key" default_model_name the_summarizer
           (world_of (Ok page_with_article) (reply " A summary. "))
           "worth reading: https://example.com/a" article_url page_with_article None
           (mk_response [mk_choice (Some " A summary. ")])
           (mk_choice (Some " A summary. ")) [] " A summary. ");
    try reflexivity; try (vm_compute; reflexivity).
  vm_compute. discriminate.
Defined.

End Pipeline.

(** * Further properties of the code *)

(** ** What the body selection returns *)

Section Selection_more.
Import PyStr Py Dom NewsSummarizer Spec Scenario Cases.

Lemma accepted_inv (n : nat) (text : string) :
  accepted n text = true ->
  text <> EmptyString
  /\ n < List.length (split text)
  /\ forall kw, In kw unwanted_keywords -> contains kw (lower text) = false.
Proof.
  unfold accepted. intros H. apply andb_true_iff in H as [H Hkw].
  apply andb_true_iff in H as [Hne Hlen]. repeat split.
  - intros ->. discriminate.
  - now apply Nat.ltb_lt.
  - intros kw Hin. apply negb_true_iff in Hkw.
    destruct (contains kw (lower text)) eqn:Hc; [|reflexivity].
    assert (existsb (fun kw => contains kw (lower text)) unwanted_keywords = true)
      by (apply existsb_exists; now exists kw).
    congruence.
Qed.

Lemma accepted_texts_inv (n : nat) (ps : list node) (t : string) :
  In t (accepted_texts n ps) -> accepted n t = true.
Proof. unfold accepted_texts. intros H. now apply filter_In in H. Qed.

(** Every text [_extract_content] returns passed the paragraph test: it is
    not empty, has more than five words, and holds no keyword of the
    denylist in any letter case. *)
Theorem extract_content_only_accepted (doc : soup) :
  Forall (fun t => t <> EmptyString
                   /\ 5 < List.length (split t)
                   /\ forall kw, In kw unwanted_keywords ->
                                 contains kw (lower t) = false)
         (_extract_content doc).
Proof.
  apply Forall_forall. intros t Ht. unfold _extract_content in Ht.
  pose proof (selectors_loop_spec content_selectors doc) as H.
  destruct (selectors_loop [] content_selectors doc) as [a|a].
  - destruct H as [_ (pre & sel & post & _ & _ & rest & Hrest)].
    assert (Hin : In t (selector_texts sel doc)) by (rewrite Hrest; apply in_or_app; now left).
    unfold selector_texts in Hin. apply in_flat_map in Hin as (b & _ & Hin).
    now apply accepted_texts_inv, accepted_inv in Hin.
  - destruct H as [-> _]. cbn [app] in Ht.
    apply accepted_texts_inv, accepted_inv in Ht as (Hne & Hlen & Hkw).
    repeat split; [exact Hne|lia|exact Hkw].
Qed.

(** A page with one paragraph, anywhere, of more than ten words and no
    keyword never comes back empty: the selectors may pick other text, but
    the fallback guarantees a result. *)
Theorem extract_content_finds_long_paragraph (doc : soup) (p : node) :
  In p (soup_find_all "p" doc) ->
  accepted 10 (get_text_strip p) = true ->
  _extract_content doc <> [].
Proof.
  intros Hin Hacc. unfold _extract_content.
  pose proof (selectors_loop_spec content_selectors doc) as H.
  destruct (selectors_loop [] content_selectors doc) as [a|a].
  - now destruct H.
  - destruct H as [-> _]. cbn [app]. intros Hnil.
    assert (Hmem : In (get_text_strip p) (accepted_texts 10 (soup_find_all "p" doc))).
    { unfold accepted_texts. apply filter_In. split; [now apply in_map|exact Hacc]. }
    rewrite Hnil in Hmem. exact Hmem.
Qed.

Lemma extract_content_finds_long_paragraph_here :
  _extract_content page_bare_paragraph <> [].
Proof.
  apply (extract_content_finds_long_paragraph page_bare_paragraph (paragraph outside_text)).
  - vm_compute. now left.
  - vm_compute; reflexivity.
Defined.

End Selection_more.

(** ** The word budget *)

Section Budget.
Import PyStr NewsSummarizer.

(** The output of the normaliser is its word list joined by single spaces:
    for a budget [n >= 0] the first [n] words of the paragraphs, so never
    more than [n] words; for a negative budget Python's slice drops the last
    [-n] words instead. *)
Theorem clean_text_word_budget (article_text : list string) (max_words : Z) :
  let words := split (join " " article_text) in
  ((0 <= max_words)%Z ->
     clean_text article_text max_words = join " " (firstn (Z.to_nat max_words) words)
     /\ List.length (split (clean_text article_text max_words))
        = Nat.min (Z.to_nat max_words) (List.length words)
     /\ (List.length (split (clean_text article_text max_words)) <= Z.to_nat max_words))
  /\ ((max_words < 0)%Z ->
        split (clean_text article_text max_words)
        = firstn (List.length words - Z.to_nat (- max_words)) words).
Proof.
  cbn zeta. split; intros Hn.
  - assert (E : clean_text article_text max_words
                = join " " (firstn (Z.to_nat max_words) (split (join " " article_text)))).
    { unfold clean_text, slice_to. rewrite split_strip, split_collapse.
      destruct (Z.leb_spec 0 max_words); [reflexivity|lia]. }
    split; [exact E|].
    rewrite split_clean_text, length_slice_to by exact Hn. split; [reflexivity|lia].
  - rewrite split_clean_text. unfold slice_to.
    destruct (Z.leb_spec 0 max_words); [lia|reflexivity].
Qed.

(** Normalising an already normalised text with the same budget changes
    nothing. *)
Theorem clean_text_idempotent (article_text : list string) (max_words : Z) :
  (0 <= max_words)%Z ->
  clean_text [clean_text article_text max_words] max_words
  = clean_text article_text max_words.
Proof.
  intros Hn.
  assert (E : forall ps, clean_text ps max_words
                         = join " " (firstn (Z.to_nat max_words) (split (join " " ps)))).
  { intros ps. unfold clean_text, slice_to. rewrite split_strip, split_collapse.
    destruct (Z.leb_spec 0 max_words); [reflexivity|lia]. }
  rewrite (E [clean_text article_text max_words]). cbn [join].
  rewrite split_clean_text. unfold slice_to.
  destruct (Z.leb_spec 0 max_words); [|lia].
  rewrite firstn_firstn, Nat.min_id. symmetry. apply E.
Qed.

Lemma clean_text_idempotent_here :
  clean_text [clean_text ["one  two"; " three four "] 3] 3
  = clean_text ["one  two"; " three four "] 3.
Proof. apply clean_text_idempotent. lia. Defined.

End Budget.

(** ** The retry loop, pass by pass *)

Section Retry_more.
Import PyStr Py Dom Url World NewsSummarizer Trace Scenario Cases.

(** [validate_url] raises [ValueError] and nothing else. *)
Lemma validate_url_raises (input_text : string) (e : exn) :
  validate_url input_text = Raise e ->
  is_ValueError e = true /\ is_Timeout e = false /\ is_RequestException e = false.
Proof.
  unfold validate_url. destruct (has_scheme_and_netloc _); [discriminate|].
  destruct (search url_pattern input_text) as [m|].
  - destruct (urlparse _); [discriminate|]. intros [= <-]. now repeat split.
  - intros [= <-]. now repeat split.
Qed.

Lemma except_clauses_events (self : self_t) (k : nat) (e : exn) :
  (fst (except_clauses self k e) = [] /\ exists e', snd (except_clauses self k e) = Raise e')
  \/ (fst (except_clauses self k e) = [Sleep (retry_delay self)]
      /\ snd (except_clauses self k e) = Ok Continue
      /\ last_attempt self k = false).
Proof.
  unfold except_clauses.
  destruct (is_Timeout e), (is_RequestException e), (last_attempt self k); cbn;
    solve [left; split; [reflexivity|now eexists] | right; now repeat split].
Qed.

(** What one pass does to the outside: nothing (the input was refused); one
    request, ending the loop; or one request and one sleep, on a pass that is
    not the last and goes on to the next. *)
Lemma loop_pass_events (self : self_t) (w : world) (k : nat) (url url' : string)
      (max_words : Z) (evs : list event) (r : result pass_end) :
  loop_pass self w k url max_words = (url', (evs, r)) ->
  (evs = [] /\ exists e, r = Raise e)
  \/ (exists u, evs = [GET u (request_timeout self)] /\ r <> Ok Continue)
  \/ (exists u, evs = [GET u (request_timeout self); Sleep (retry_delay self)]
                /\ r = Ok Continue /\ last_attempt self k = false).
Proof.
  unfold loop_pass.
  assert (Hex : forall e u,
            (let (evs', r0) := except_clauses self k e in
             (u, ([GET u (request_timeout self)] ++ evs', r0))) = (url', (evs, r)) ->
            (exists u0, evs = [GET u0 (request_timeout self)] /\ r <> Ok Continue)
            \/ (exists u0, evs = [GET u0 (request_timeout self); Sleep (retry_delay self)]
                           /\ r = Ok Continue /\ last_attempt self k = false)).
  { intros e u. destruct (except_clauses_events self k e) as [[He (e' & Hr)]|(He & Hr & Hk)];
      destruct (except_clauses self k e) as [evs' r0]; cbn in He, Hr; subst evs' r0;
      intros [= <- <- <-].
    - left. exists u. split; [reflexivity|discriminate].
    - right. exists u. now repeat split. }
  destruct (validate_url url) as [u|e] eqn:Hv.
  - unfold try_body. destruct (http_get w k u) as [doc|e]; [|intros H; right; now apply (Hex e u)].
    destruct (main_image w u doc) as [img|e]; [|intros H; right; now apply (Hex e u)].
    destruct (_extract_content doc) as [|t ts].
    + destruct (last_attempt self k) eqn:Hk.
      * intros H. right.
        now apply (Hex (ValueError "No meaningful text could be extracted from the article.") u).
      * intros [= <- <- <-]. right. right. exists u. now repeat split.
    + intros [= <- <- <-]. right. left. exists u. split; [reflexivity|discriminate].
  - apply validate_url_raises in Hv as (_ & Ht & Hr).
    unfold except_clauses. rewrite Ht, Hr. intros [= <- <- <-]. left.
    split; [reflexivity|now eexists].
Qed.

Lemma attempts_trace (self : self_t) (w : world) (n k : nat) (url : string)
      (max_words : Z) :
  k + n = Z.to_nat (max_retries self) ->
  let evs := fst (attempts self w n k url max_words) in
  paced (request_timeout self) (retry_delay self) evs = true
  /\ gets evs <= n /\ sleeps evs <= Nat.pred n /\ sleeps evs <= gets evs.
Proof.
  cbn zeta. revert k url. induction n as [|n IH]; intros k url Hsum; cbn [attempts].
  - cbn. repeat split; lia.
  - destruct (loop_pass self w k url max_words) as [url' [evs r]] eqn:Hpass.
    pose proof (loop_pass_events _ _ _ _ _ _ _ _ Hpass) as Hev.
    destruct Hev as [[-> (e & ->)]|[(u & -> & Hr)|(u & -> & -> & Hk)]].
    + cbn. repeat split; lia.
    + assert (Hone : fst (match r with
                          | Ok (Return d) => ([GET u (request_timeout self)], Ok d)
                          | Ok Continue =>
                              let (evs', r0) := attempts self w n (S k) url' max_words in
                              ([GET u (request_timeout self)] ++ evs', r0)
                          | Raise e => ([GET u (request_timeout self)], Raise e)
                          end) = [GET u (request_timeout self)]).
      { destruct r as [[d|]|e]; [reflexivity|congruence|reflexivity]. }
      rewrite Hone. cbn. rewrite Z.eqb_refl. repeat split; cbn; lia.
    + specialize (IH (S k) url' ltac:(lia)).
      destruct (attempts self w n (S k) url' max_words) as [evs' r'].
      cbn [fst] in IH |- *. destruct IH as (Hp & Hg & Hs & Hsg).
      assert (Hn : 1 <= n).
      { unfold last_attempt in Hk. apply negb_false_iff, Z.ltb_lt in Hk. lia. }
      cbn [app paced]. rewrite !Z.eqb_refl, Hp.
      unfold gets, sleeps in *. cbn. repeat split; lia.
Qed.

(** Whatever the server and the input do, [extract_article_content] issues at
    most [max_retries] requests, each with the configured time-out, sleeps
    only between requests and each time for the configured delay, and sleeps
    fewer times than [max_retries]. *)
Theorem extraction_trace_paced (self : self_t) (w : world) (url : string)
        (max_words : Z) :
  let evs := fst (extract_article_content self w url max_words) in
  paced (request_timeout self) (retry_delay self) evs = true
  /\ gets evs <= Z.to_nat (max_retries self)
  /\ sleeps evs <= Nat.pred (Z.to_nat (max_retries self))
  /\ sleeps evs <= gets evs.
Proof.
  cbn zeta. unfold extract_article_content.
  apply (attempts_trace self w (Z.to_nat (max_retries self)) 0 url max_words).
  reflexivity.
Qed.

(** An input the validator refuses causes no request at all: the call raises
    at once, and [process_article] turns that into the validation-error
    object. *)
Theorem refused_input_makes_no_request (self : self_t) (w : world)
        (input_text : string) (max_words : Z) (e : exn) :
  (1 <= max_retries self)%Z ->
  validate_url input_text = Raise e ->
  extract_article_content self w input_text max_words = ([], Raise e)
  /\ process_article self w input_text
     = ([], Ok [("error", Str ("Validation error: " ++ exn_msg e));
                ("processing_status", Str "failed");
                ("validation_method", Str "llm")]).
Proof.
  intros Hmax Hv.
  assert (E : forall mw, extract_article_content self w input_text mw = ([], Raise e)).
  { intros mw. unfold extract_article_content.
    destruct (Z.to_nat (max_retries self)) as [|n] eqn:Hn; [lia|].
    cbn [attempts]. unfold loop_pass. rewrite Hv.
    apply validate_url_raises in Hv as (_ & Ht & Hr).
    unfold except_clauses. now rewrite Ht, Hr. }
  split; [apply E|].
  unfold process_article, process_article_try. rewrite E. cbn [bind try_except].
  apply validate_url_raises in Hv as (-> & _). reflexivity.
Qed.

Lemma refused_input_makes_no_request_here :
  extract_article_content the_summarizer (world_of (Ok page_with_article) (reply "unused"))
    "hello world" 2900
  = ([], Raise (ValueError "Invalid input. Please provide a valid URL."))
  /\ process_article the_summarizer (world_of (Ok page_with_article) (reply "unused"))
       "hello world"
     = ([], Ok [("error", Str ("Validation error: "
                               ++ exn_msg (ValueError "Invalid input. Please provide a valid URL.")));
                ("processing_status", Str "failed");
                ("validation_method", Str "llm")]).
Proof.
  apply refused_input_makes_no_request.
  - cbn. lia.
  - vm_compute; reflexivity.
Defined.

End Retry_more.

(** ** Retries that end *)

Section Retry_ends.
Import PyStr Py Dom Url World NewsSummarizer Trace Retry Scenario Cases.

Lemma loop_pass_retryable (self : self_t) (w : world) (k : nat) (url u : string)
      (max_words : Z) :
  validate_url url = Ok u -> retryable w k u -> last_attempt self k = false ->
  loop_pass self w k url max_words
  = (u, ([GET u (request_timeout self); Sleep (retry_delay self)], Ok Continue)).
Proof.
  intros Hv [(e & Hget & He)|(doc & img & Hget & Himg & Hnone)] Hk.
  - rewrite (loop_pass_get_raises _ _ _ _ _ _ _ Hv Hget),
            (except_clauses_retry _ _ _ He Hk). reflexivity.
  - rewrite (loop_pass_no_content _ _ _ _ _ _ _ _ Hv Hget Himg Hnone), Hk. reflexivity.
Qed.

(** [i] retried passes, then a pass that ends the loop. *)
Lemma attempts_after_retries (self : self_t) (w : world) (u : string) (max_words : Z)
      (evs_f : list event) (r_f : result pass_end) (res : result dict) (i : nat) :
  validate_url u = Ok u ->
  ends_with r_f res ->
  forall n k0 url,
    validate_url url = Ok u ->
    (forall j, k0 <= j < k0 + i -> retryable w j u) ->
    (Z.of_nat (k0 + i) < max_retries self)%Z ->
    i < n ->
    (forall url0, validate_url url0 = Ok u ->
                  loop_pass self w (k0 + i) url0 max_words = (u, (evs_f, r_f))) ->
    attempts self w n k0 url max_words
    = (retries u (request_timeout self) (retry_delay self) i ++ evs_f, res).
Proof.
  intros Hu Hend. induction i as [|i IH]; intros n k0 url Hv Hretry Hlt Hn Hfinal.
  - destruct n as [|n]; [lia|]. cbn [attempts retries app].
    rewrite Nat.add_0_r in Hfinal. rewrite (Hfinal url Hv).
    destruct r_f as [[d|]|e]; cbn in Hend; [now subst|contradiction|now subst].
  - destruct n as [|n]; [lia|]. cbn [attempts].
    rewrite (loop_pass_retryable self w k0 url u max_words Hv).
    + rewrite (IH n (S k0) u Hu).
      * reflexivity.
      * intros j Hj. apply Hretry. lia.
      * replace (S k0 + i) with (k0 + S i) by lia. exact Hlt.
      * lia.
      * intros url0 Hv0. replace (S k0 + i) with (k0 + S i) by lia. now apply Hfinal.
    + apply Hretry. lia.
    + unfold last_attempt. apply negb_false_iff, Z.ltb_lt. lia.
Qed.

(** Retrying pays: when the first [k] passes fail with transport errors or
    empty pages and pass [k] (still within the ceiling) finds a page with a
    qualifying paragraph, the call returns that page's text, after [k]
    request-and-sleep rounds and one more request. *)
Theorem retry_recovers (self : self_t) (w : world) (url u : string) (max_words : Z)
        (k : nat) (doc : soup) (img : option string) :
  validate_url url = Ok u ->
  validate_url u = Ok u ->
  (Z.of_nat k < max_retries self)%Z ->
  (forall j, j < k -> retryable w j u) ->
  http_get w k u = Ok doc ->
  main_image w u doc = Ok img ->
  _extract_content doc <> [] ->
  extract_article_content self w url max_words
  = (retries u (request_timeout self) (retry_delay self) k
       ++ [GET u (request_timeout self)],
     Ok [("text", Str (clean_text (_extract_content doc) max_words));
         ("image", of_option img); ("link", Str u)]).
Proof.
  intros Hv Hu Hk Hretry Hget Himg Hc. unfold extract_article_content.
  apply (attempts_after_retries self w u max_words [GET u (request_timeout self)]
           (Ok (Return [("text", Str (clean_text (_extract_content doc) max_words));
                        ("image", of_option img); ("link", Str u)]))
           _ k Hu eq_refl _ 0 url Hv).
  - intros j Hj. apply Hretry. lia.
  - exact Hk.
  - lia.
  - intros url0 Hv0. unfold loop_pass, try_body. cbn [Nat.add].
    rewrite Hv0, Hget, Himg. destruct (_extract_content doc); [congruence|reflexivity].
Qed.

Lemma retry_recovers_here :
  extract_article_content the_summarizer
    (flaky_world 2 page_with_article (reply "unused")) article_url 2900
  = (retries article_url 30 2 2 ++ [GET article_url 30],
     Ok [("text", Str (clean_text (_extract_content page_with_article) 2900));
         ("image", of_option None); ("link", Str article_url)]).
Proof.
  apply (retry_recovers the_summarizer (flaky_world 2 page_with_article (reply "unused"))
           article_url article_url 2900 2 page_with_article None).
  - vm_compute; reflexivity.
  - vm_compute; reflexivity.
  - cbn. lia.
  - intros j Hj. left. exists read_timeout.
    destruct j as [|[|j]]; [split; reflexivity|split; reflexivity|lia].
  - reflexivity.
  - reflexivity.
  - vm_compute. discriminate.
Defined.

(** An exception of the fetch that is neither a time-out nor another
    [requests] error is not retried: it leaves the call on the pass where it
    occurs, with no sleep after the request. *)
Theorem other_exception_not_retried (self : self_t) (w : world) (url u : string)
        (max_words : Z) (k : nat) (e : exn) :
  validate_url url = Ok u ->
  validate_url u = Ok u ->
  (Z.of_nat k < max_retries self)%Z ->
  (forall j, j < k -> retryable w j u) ->
  http_get w k u = Raise e ->
  is_Timeout e = false ->
  is_RequestException e = false ->
  extract_article_content self w url max_words
  = (retries u (request_timeout self) (retry_delay self) k
       ++ [GET u (request_timeout self)],
     Raise e).
Proof.
  intros Hv Hu Hk Hretry Hget Ht Hr. unfold extract_article_content.
  apply (attempts_after_retries self w u max_words [GET u (request_timeout self)]
           (Raise e) _ k Hu eq_refl _ 0 url Hv).
  - intros j Hj. apply Hretry. lia.
  - exact Hk.
  - lia.
  - intros url0 Hv0. cbn [Nat.add].
    rewrite (loop_pass_get_raises _ _ _ _ _ _ _ Hv0 Hget).
    unfold except_clauses. now rewrite Ht, Hr.
Qed.

Lemma other_exception_not_retried_here :
  extract_article_content the_summarizer
    (world_of (Raise parser_crash) (reply "unused")) article_url 2900
  = (retries article_url 30 2 0 ++ [GET article_url 30], Raise parser_crash).
Proof.
  apply (other_exception_not_retried the_summarizer
           (world_of (Raise parser_crash) (reply "unused")) article_url article_url
           2900 0 parser_crash);
    try reflexivity; try (vm_compute; reflexivity).
  intros j Hj. lia.
Defined.

(** For any ceiling [N >= 1]: when every pass fails with a transport error,
    [process_article] makes [N] requests with [N - 1] sleeps between them and
    reports an unexpected error whose [error_type] is [TimeoutError] when the
    last failure was a time-out and [ConnectionError] otherwise. *)
Theorem transport_failure_report (self : self_t) (w : world) (input_text u : string) :
  (1 <= max_retries self)%Z ->
  validate_url input_text = Ok u ->
  validate_url u = Ok u ->
  (forall j, j < Z.to_nat (max_retries self) ->
     exists e, http_get w j u = Raise e
               /\ (is_Timeout e || is_RequestException e)%bool = true) ->
  exists e_last,
    http_get w (Nat.pred (Z.to_nat (max_retries self))) u = Raise e_last
    /\ process_article self w input_text
       = (retries u (request_timeout self) (retry_delay self)
            (Nat.pred (Z.to_nat (max_retries self)))
            ++ [GET u (request_timeout self)],
          Ok [("error",
               Str ("Unexpected error during article processing: "
                    ++ "Failed to fetch article after " ++ str_of_Z (max_retries self)
                    ++ (if is_Timeout e_last then " attempts: Connection timeout"
                        else " attempts: " ++ exn_msg e_last)));
              ("processing_status", Str "failed");
              ("error_type",
               Str (if is_Timeout e_last then "TimeoutError" else "ConnectionError"));
              ("validation_method", Str "llm")]).
Proof.
  intros Hmax Hv Hu Hfail.
  set (N := Z.to_nat (max_retries self)) in *.
  destruct (Hfail (Nat.pred N)) as (e & Hget & He); [lia|].
  exists e. split; [exact Hget|].
  assert (Hlast : last_attempt self (Nat.pred N) = true).
  { unfold last_attempt. apply negb_true_iff, Z.ltb_ge. lia. }
  assert (E : extract_article_content self w input_text 2900
              = (retries u (request_timeout self) (retry_delay self) (Nat.pred N)
                   ++ [GET u (request_timeout self)],
                 Raise (if is_Timeout e
                        then TimeoutError ("Failed to fetch article after "
                                           ++ str_of_Z (max_retries self)
                                           ++ " attempts: Connection timeout")
                        else ConnectionError ("Failed to fetch article after "
                                              ++ str_of_Z (max_retries self)
                                              ++ " attempts: " ++ exn_msg e)))).
  { unfold extract_article_content. fold N.
    apply (attempts_after_retries self w u 2900 [GET u (request_timeout self)]
             (Raise (if is_Timeout e
                     then TimeoutError ("Failed to fetch article after "
                                        ++ str_of_Z (max_retries self)
                                        ++ " attempts: Connection timeout")
                     else ConnectionError ("Failed to fetch article after "
                                           ++ str_of_Z (max_retries self)
                                           ++ " attempts: " ++ exn_msg e)))
             _ (Nat.pred N) Hu eq_refl _ 0 input_text Hv).
    - intros j Hj. left. apply Hfail. lia.
    - cbn [Nat.add]. lia.
    - lia.
    - intros url0 Hv0. cbn [Nat.add].
      rewrite (loop_pass_get_raises _ _ _ _ _ _ _ Hv0 Hget),
              (except_clauses_last _ _ _ He Hlast).
      reflexivity. }
  unfold process_article, process_article_try. rewrite E. cbn [bind try_except].
  destruct (is_Timeout e); reflexivity.
Qed.

Lemma transport_failure_report_here :
  exists e_last,
    http_get (world_of (Raise connection_refused) (reply "unused"))
             (Nat.pred (Z.to_nat (max_retries (mk_self default_model_name 10 5 1))))
             article_url = Raise e_last
    /\ process_article (mk_self default_model_name 10 5 1)
         (world_of (Raise connection_refused) (reply "unused")) article_url
       = (retries article_url 10 1 (Nat.pred (Z.to_nat 5)) ++ [GET article_url 10],
          Ok [("error",
               Str ("Unexpected error during article processing: "
                    ++ "Failed to fetch article after " ++ str_of_Z 5
                    ++ (if is_Timeout e_last then " attempts: Connection timeout"
                        else " attempts: " ++ exn_msg e_last)));
              ("processing_status", Str "failed");
              ("error_type",
               Str (if is_Timeout e_last then "TimeoutError" else "ConnectionError"));
              ("validation_method", Str "llm")]).
Proof.
  apply (transport_failure_report (mk_self default_model_name 10 5 1)
           (world_of (Raise connection_refused) (reply "unused")) article_url article_url).
  - cbn. lia.
  - vm_compute; reflexivity.
  - vm_compute; reflexivity.
  - intros j _. exists connection_refused. split; reflexivity.
Defined.

End Retry_ends.

(** ** What [process_article] hands back *)

Section Orchestrator_more.
Import PyStr Py Dom Url World NewsSummarizer Trace Scenario Cases.

Lemma summarize_text_ok (self : self_t) (w : world) (text : string)
      (min_length max_length : Z) :
  exists s, summarize_text self w text min_length max_length = Ok s.
Proof.
  unfold summarize_text, first_content_stripped.
  destruct (completions_create w _) as [r|e]; cbn [bind try_except]; [|now eexists].
  destruct (choices r) as [|c rest]; cbn [try_except]; [now eexists|].
  destruct (message_content c); cbn [try_except]; now eexists.
Qed.

(** A failing completion call does not fail the article: the result has the
    shape of a success, with the error text standing where the summary
    should be, and no key [error]. *)
Theorem summary_failure_is_success_shaped (self : self_t) (w : world)
        (input_text u : string) (doc : soup) (img : option string) (e : exn) :
  (1 <= max_retries self)%Z ->
  validate_url input_text = Ok u ->
  http_get w 0 u = Ok doc ->
  main_image w u doc = Ok img ->
  _extract_content doc <> [] ->
  completions_create w
    (summarize_request self (clean_text (_extract_content doc) 2900) 800) = Raise e ->
  process_article self w input_text
  = ([GET u (request_timeout self)],
     Ok [("summary", Str ("Error generating summary: " ++ exn_msg e));
         ("link", Str u); ("image", of_option img)]).
Proof.
  intros Hmax Hv Hget Himg Hc Hcall.
  unfold process_article, process_article_try, extract_article_content.
  destruct (Z.to_nat (max_retries self)) as [|n] eqn:Hn; [lia|]. cbn [attempts].
  unfold loop_pass, try_body. rewrite Hv, Hget, Himg.
  destruct (_extract_content doc) as [|t ts] eqn:Hd; [congruence|].
  cbn [bind has_key get String.eqb Ascii.eqb Bool.eqb getitem format_value].
  unfold summarize_text. rewrite Hcall. reflexivity.
Qed.

Lemma summary_failure_is_success_shaped_here :
  process_article the_summarizer (world_of (Ok page_with_article) (Raise rate_limited))
    article_url
  = ([GET article_url (request_timeout the_summarizer)],
     Ok [("summary", Str ("Error generating summary: " ++ exn_msg rate_limited));
         ("link", Str article_url); ("image", of_option None)]).
Proof.
  apply (summary_failure_is_success_shaped the_summarizer
           (world_of (Ok page_with_article) (Raise rate_limited)) article_url article_url
           page_with_article None rate_limited);
    try reflexivity; try (vm_compute; reflexivity).
  - cbn. lia.
  - vm_compute. discriminate.
Defined.

Lemma attempts_ok_cases (self : self_t) (w : world) (n k : nat) (url : string)
      (max_words : Z) (evs : list event) (d : dict) :
  attempts self w n k url max_words = (evs, Ok d) ->
  d = [("error", Str "Failed to extract article content after all retries")]
  \/ exists doc img url',
       d = [("text", Str (clean_text (_extract_content doc) max_words));
            ("image", of_option img); ("link", Str url')].
Proof.
  revert k url evs. induction n as [|n IH]; intros k url evs; cbn [attempts].
  - intros [= _ <-]. now left.
  - destruct (loop_pass self w k url max_words) as [url' [evs1 [[d1|]|e]]] eqn:Hpass.
    + intros [= _ <-]. apply loop_pass_return in Hpass as (doc & img & _ & ->).
      right. now exists doc, img, url'.
    + destruct (attempts self w n (S k) url' max_words) as [evs2 r] eqn:Hrec.
      intros [= _ ->]. now apply (IH _ _ _ Hrec).
    + discriminate.
Qed.

(** The dictionary [process_article] returns has one of four shapes: a
    success (summary, link, image); a wrapped validation error; a wrapped
    unexpected error with its [error_type]; or, only when no attempt is
    configured, the bare error of the extraction.  So exactly one of the keys
    [summary] and [error] is present. *)
Theorem process_article_shapes (self : self_t) (w : world) (input_text : string) :
  exists d,
    snd (process_article self w input_text) = Ok d
    /\ ((exists s l i, d = [("summary", Str s); ("link", Str l); ("image", i)])
        \/ (exists m, d = [("error", Str ("Validation error: " ++ m));
                           ("processing_status", Str "failed");
                           ("validation_method", Str "llm")])
        \/ (exists m t, d = [("error", Str ("Unexpected error during article processing: " ++ m));
                             ("processing_status", Str "failed");
                             ("error_type", Str t);
                             ("validation_method", Str "llm")])
        \/ (d = [("error", Str "Failed to extract article content after all retries")]
            /\ (max_retries self <= 0)%Z))
    /\ has_key "error" d = negb (has_key "summary" d).
Proof.
  unfold process_article, process_article_try.
  destruct (extract_article_content self w input_text 2900) as [evs [d0|e]] eqn:Hex;
    cbn [snd bind try_except].
  - destruct (Z_le_gt_dec 1 (max_retries self)) as [Hmax|Hmax].
    + unfold extract_article_content in Hex.
      apply attempts_ok_shape in Hex as (doc & img & url' & _ & ->); [|lia|lia].
      cbn [has_key get String.eqb Ascii.eqb Bool.eqb getitem bind format_value].
      destruct (summarize_text_ok self w (clean_text (_extract_content doc) 2900) 400 800)
        as [s Hs].
      rewrite Hs. cbn [bind try_except get_or_none get String.eqb Ascii.eqb Bool.eqb].
      eexists. split; [reflexivity|]. split; [|reflexivity].
      left. now do 3 eexists.
    + unfold extract_article_content in Hex.
      replace (Z.to_nat (max_retries self)) with 0 in Hex by lia.
      cbn [attempts] in Hex. injection Hex as _ <-.
      eexists. split; [reflexivity|]. split; [|reflexivity].
      right. right. right. split; [reflexivity|lia].
  - destruct (is_ValueError e); eexists; (split; [reflexivity|]); (split; [|reflexivity]).
    + right. left. now eexists.
    + right. right. left. now do 2 eexists.
Qed.

Lemma main_image_agrees (w1 w2 : world) (u : string) (doc : soup) :
  (forall b r, urljoin w1 b r = urljoin w2 b r) ->
  main_image w1 u doc = main_image w2 u doc.
Proof.
  intros Hj. unfold main_image.
  assert (E : forall tag key, joined_attr w1 u tag key = joined_attr w2 u tag key).
  { intros tag key. unfold joined_attr. destruct tag as [t|]; [|reflexivity].
    destruct (attr key t); [|reflexivity]. now rewrite Hj. }
  rewrite !E. reflexivity.
Qed.

Lemma attempts_agree (self : self_t) (w1 w2 : world) (max_words : Z) :
  (forall k u, http_get w1 k u = http_get w2 k u) ->
  (forall b r, urljoin w1 b r = urljoin w2 b r) ->
  forall n k url,
    attempts self w1 n k url max_words = attempts self w2 n k url max_words.
Proof.
  intros Hget Hjoin. induction n as [|n IH]; intros k url; [reflexivity|].
  cbn [attempts].
  assert (E : loop_pass self w1 k url max_words = loop_pass self w2 k url max_words).
  { unfold loop_pass, try_body. destruct (validate_url url) as [u|e]; [|reflexivity].
    rewrite Hget. destruct (http_get w2 k u) as [doc|e]; [|reflexivity].
    now rewrite (main_image_agrees w1 w2 u doc Hjoin). }
  rewrite E. destruct (loop_pass self w2 k url max_words) as [url' [evs [[d|]|e]]];
    try reflexivity.
  now rewrite IH.
Qed.

(** [process_article] depends on the completion endpoint only through
    requests made in the summariser's role: two worlds that differ only in
    how they answer other requests (those of [remove_redundancies] among
    them) give the same events and the same result. *)
Theorem process_article_ignores_other_requests (self : self_t) (w1 w2 : world)
        (input_text : string) :
  (forall k u, http_get w1 k u = http_get w2 k u) ->
  (forall b r, urljoin w1 b r = urljoin w2 b r) ->
  (forall req, req_system req = "You are a news summarization expert." ->
               completions_create w1 req = completions_create w2 req) ->
  process_article self w1 input_text = process_article self w2 input_text.
Proof.
  intros Hget Hjoin Hreq.
  unfold process_article, process_article_try, extract_article_content.
  rewrite (attempts_agree self w1 w2 2900 Hget Hjoin).
  destruct (attempts self w2 _ 0 input_text 2900) as [evs [d|e]]; [|reflexivity].
  cbn [bind]. destruct (has_key "error" d); [reflexivity|].
  destruct (getitem "text" d) as [text|e]; [|reflexivity]. cbn [bind].
  unfold summarize_text. now rewrite Hreq.
Qed.

Lemma process_article_ignores_other_requests_here :
  process_article the_summarizer
    (split_world (Ok page_with_article) (reply "A summary.") (reply "Deduplicated."))
    article_url
  = process_article the_summarizer
      (split_world (Ok page_with_article) (reply "A summary.") (Raise rate_limited))
      article_url.
Proof.
  apply process_article_ignores_other_requests.
  - reflexivity.
  - reflexivity.
  - intros req Hreq. cbn. now rewrite Hreq.
Defined.

End Orchestrator_more.

(** ** The deduplication client *)

Section Dedup_more.
Import PyStr Py World NewsSummarizer Scenario.

Lemma strip_nonempty_has_char (s : string) :
  is_empty s = false -> s <> EmptyString.
Proof. destruct s; [discriminate|discriminate]. Qed.

(** [remove_redundancies] never raises and never returns the empty string
    for a non-empty input: its result is the input itself or the non-empty
    stripped reply. *)
Theorem remove_redundancies_never_empty (self : self_t) (w : world) (text : string) :
  text <> EmptyString ->
  exists out,
    remove_redundancies self w text = Ok out
    /\ out <> EmptyString
    /\ (out = text
        \/ exists r c rest content,
             completions_create w (dedup_request self text) = Ok r
             /\ choices r = c :: rest /\ message_content c = Some content
             /\ out = strip content).
Proof.
  intros Htext. unfold remove_redundancies, first_content_stripped.
  destruct (completions_create w (dedup_request self text)) as [r|e] eqn:Hcall;
    cbn [bind try_except].
  - destruct (choices r) as [|c rest] eqn:Hch; cbn [bind try_except].
    + exists text. repeat split; [exact Htext|now left].
    + destruct (message_content c) as [content|] eqn:Hc; cbn [bind try_except].
      * destruct (is_empty (strip content)) eqn:He; cbn [try_except].
        -- exists text. repeat split; [exact Htext|now left].
        -- exists (strip content). repeat split.
           ++ now apply strip_nonempty_has_char.
           ++ right. now exists r, c, rest, content.
      * exists text. repeat split; [exact Htext|now left].
  - exists text. repeat split; [exact Htext|now left].
Qed.

Lemma remove_redundancies_never_empty_here :
  exists out,
    remove_redundancies the_summarizer (world_of (Ok page_with_article) (reply " Shorter. "))
      lead_text = Ok out
    /\ out <> EmptyString
    /\ (out = lead_text
        \/ exists r c rest content,
             completions_create (world_of (Ok page_with_article) (reply " Shorter. "))
               (dedup_request the_summarizer lead_text) = Ok r
             /\ choices r = c :: rest /\ message_content c = Some content
             /\ out = strip content).
Proof.
  apply remove_redundancies_never_empty. discriminate.
Defined.

End Dedup_more.

(** ** What the validator's pattern can match *)

Section Validator_more.
Import PyStr Py Url NewsSummarizer Pattern.

Lemma forall_chars_impl (P Q : ascii -> bool) (s : string) :
  (forall x, P x = true -> Q x = true) ->
  forall_chars P s = true -> forall_chars Q s = true.
Proof.
  intros HPQ. induction s as [|c s IH]; [reflexivity|]. cbn.
  intros H. apply andb_true_iff in H as [Hc Hs]. now rewrite (HPQ c Hc), IH.
Qed.

Lemma take_add (a b : nat) (s : string) :
  take (a + b) s = (take a s ++ take b (drop a s))%string.
Proof.
  revert s. induction a as [|a IH]; intros s.
  - reflexivity.
  - destruct s as [|c s]; cbn [Nat.add take drop append].
    + now destruct b.
    + now rewrite IH.
Qed.

Lemma take_class (cls : ascii -> bool) (j : nat) (s : string) :
  j <= count_class cls s -> forall_chars cls (take j s) = true.
Proof.
  revert s. induction j as [|j IH]; intros s Hj; [reflexivity|].
  destruct s as [|c s]; [cbn in Hj; lia|]. cbn [count_class] in Hj.
  destruct (cls c) eqn:Hc; [|lia]. cbn [take forall_chars]. rewrite Hc.
  apply IH. lia.
Qed.

Lemma take_ci_prefix (l s : string) :
  ci_prefix l s = true ->
  forall_chars (fun x => ci_mem x l) (take (String.length l) s) = true.
Proof.
  revert s. induction l as [|c l IH]; intros s; [reflexivity|].
  destruct s as [|x s]; [discriminate|]. cbn [ci_prefix String.length take forall_chars].
  intros H. apply andb_true_iff in H as [Hx Hl]. cbn [ci_mem]. rewrite Hx. cbn [orb andb].
  apply forall_chars_impl with (P := fun y => ci_mem y l); [|now apply IH].
  intros y Hy. cbn [ci_mem]. rewrite Hy. apply orb_true_r.
Qed.

Lemma try_down_some (lo k : nat) (cont : nat -> option nat) (r : nat) :
  try_down lo k cont = Some r -> exists j, j <= k /\ cont j = Some r.
Proof.
  induction k as [|k IH]; cbn [try_down].
  - destruct (Nat.ltb 0 lo); [discriminate|].
    destruct (cont 0) eqn:E; [|discriminate]. intros [= <-]. now exists 0.
  - destruct (Nat.ltb (S k) lo); [discriminate|].
    destruct (cont (S k)) eqn:E.
    + intros [= <-]. now exists (S k).
    + intros H. apply IH in H as (j & Hj & Hc). exists j. split; [lia|exact Hc].
Qed.

(** Every character of a matched text is admitted by some atom. *)
Lemma match_atoms_chars (p : list atom) :
  forall prev s n,
    match_atoms p prev s = Some n -> forall_chars (admits p) (take n s) = true.
Proof.
  induction p as [|a p IH]; intros prev s n.
  - intros [= <-]. reflexivity.
  - assert (Hrest : forall t, forall_chars (admits p) t = true ->
                              forall_chars (admits (a :: p)) t = true).
    { intros t. apply forall_chars_impl. intros x Hx. unfold admits in *.
      cbn [existsb]. rewrite Hx. apply orb_true_r. }
    assert (Hhere : forall t, forall_chars (atom_admits a) t = true ->
                              forall_chars (admits (a :: p)) t = true).
    { intros t. apply forall_chars_impl. intros x Hx. unfold admits.
      cbn [existsb]. now rewrite Hx. }
    destruct a as [c|l|cls lo hi|].
    + intros H. apply match_lit in H as (x & s' & m & -> & Hx & Hm & ->).
      cbn [take forall_chars]. unfold admits at 1. cbn [existsb atom_admits].
      rewrite Hx. cbn [orb andb]. apply Hrest. now apply IH in Hm.
    + intros H. apply match_opt in H as [[Hl (m & Hm & ->)]|H].
      * rewrite take_add, forall_chars_app. apply andb_true_iff. split.
        -- apply Hhere. change (forall_chars (fun x => ci_mem x l) (take (String.length l) s) = true).
           now apply take_ci_prefix.
        -- apply Hrest. now apply IH in Hm.
      * apply Hrest. now apply IH in H.
    + cbn [match_atoms]. intros H. apply try_down_some in H as (j & Hj & Hc).
      destruct (match_atoms p (char_before j prev s) (drop j s)) as [m|] eqn:Hm;
        [|discriminate]. cbn in Hc. injection Hc as <-.
      rewrite take_add, forall_chars_app. apply andb_true_iff. split.
      * apply Hhere. change (forall_chars cls (take j s) = true). apply take_class.
        cbv zeta in Hj. destruct hi as [h|]; lia.
      * apply Hrest. now apply IH in Hm.
    + cbn [match_atoms]. destruct (Bool.eqb _ _); [discriminate|].
      intros H. apply Hrest. now apply IH in H.
Qed.

(** The URL pattern admits no square bracket. *)
Lemma url_pattern_no_bracket (x : ascii) :
  admits url_pattern x = true -> no_bracket x = true.
Proof.
  destruct x as [b0 b1 b2 b3 b4 b5 b6 b7].
  destruct b0, b1, b2, b3, b4, b5, b6, b7; vm_compute; intros H;
    solve [reflexivity | discriminate H].
Qed.

Lemma no_bracket_mem (c : ascii) (s : string) :
  no_bracket c = false -> forall_chars no_bracket s = true -> mem_char c s = false.
Proof.
  intros Hc. induction s as [|d s IH]; [reflexivity|]. cbn.
  intros H. apply andb_true_iff in H as [Hd Hs]. rewrite (IH Hs), orb_false_r.
  destruct (Ascii.eqb_spec c d) as [->|]; [congruence|reflexivity].
Qed.

Lemma no_bracket_lstrip_c0 (s : string) :
  forall_chars no_bracket s = true -> forall_chars no_bracket (lstrip_c0 s) = true.
Proof.
  induction s as [|c s IH]; [reflexivity|]. cbn [lstrip_c0].
  destruct (N.leb (code c) 32); [|easy]. cbn. intros H.
  apply andb_true_iff in H as [_ H]. now apply IH.
Qed.

Lemma no_bracket_remove_chars (bad s : string) :
  forall_chars no_bracket s = true -> forall_chars no_bracket (remove_chars bad s) = true.
Proof.
  induction s as [|c s IH]; [reflexivity|]. cbn. intros H.
  apply andb_true_iff in H as [Hc Hs]. destruct (mem_char c bad); [now apply IH|].
  cbn. now rewrite Hc, IH.
Qed.

Lemma no_bracket_span_until (stop s : string) :
  forall_chars no_bracket s = true ->
  forall_chars no_bracket (fst (span_until stop s)) = true
  /\ forall_chars no_bracket (snd (span_until stop s)) = true.
Proof.
  induction s as [|c s IH]; [now split|]. cbn [span_until]. intros H.
  destruct (mem_char c stop); [now split|].
  cbn in H. apply andb_true_iff in H as [Hc Hs]. destruct (IH Hs) as [Ha Hb].
  destruct (span_until stop s) as [a b]. cbn in *. now rewrite Hc, Ha.
Qed.

Lemma no_bracket_drop (n : nat) (s : string) :
  forall_chars no_bracket s = true -> forall_chars no_bracket (drop n s) = true.
Proof.
  revert s. induction n as [|n IH]; intros s; [now destruct s|].
  destruct s as [|c s]; [easy|]. cbn. intros H.
  apply andb_true_iff in H as [_ H]. now apply IH.
Qed.

(** [urlparse] accepts every text without square brackets. *)
Lemma urlparse_no_bracket (u : string) :
  forall_chars no_bracket u = true -> exists p, urlparse u = Ok p.
Proof.
  intros Hu. unfold urlparse.
  set (url := remove_chars tab_cr_lf (lstrip_c0 u)).
  assert (Hurl : forall_chars no_bracket url = true)
    by now apply no_bracket_remove_chars, no_bracket_lstrip_c0.
  destruct (no_bracket_span_until ":" url Hurl) as [Hb Ha].
  destruct (span_until ":" url) as [before after]. cbn [fst snd] in Hb, Ha.
  assert (Hrest : forall sch rest, forall_chars no_bracket rest = true ->
            exists p,
              (if prefix "//" rest
               then let loc := fst (span_until "/?#" (drop 2 rest)) in
                    if xorb (mem_char "[" loc) (mem_char "]" loc)
                    then Raise (ValueError "Invalid IPv6 URL")
                    else Ok (mk_parsed sch loc)
               else Ok (mk_parsed sch EmptyString)) = Ok p).
  { intros sch rest Hr. destruct (prefix "//" rest); [|now eexists]. cbn zeta.
    assert (Hloc : forall_chars no_bracket (fst (span_until "/?#" (drop 2 rest))) = true)
      by now apply no_bracket_span_until, no_bracket_drop.
    rewrite (no_bracket_mem "[" _ eq_refl Hloc), (no_bracket_mem "]" _ eq_refl Hloc).
    now eexists. }
  destruct before as [|c0 before']; [now apply Hrest|].
  destruct after as [|c1 after']; [now apply Hrest|].
  destruct (is_ascii_alpha c0 && forall_chars scheme_char (String c0 before'))%bool.
  - apply Hrest. cbn in Ha. now apply andb_true_iff in Ha.
  - now apply Hrest.
Qed.

Lemma search_from_chars (prev : option ascii) (s m : string) :
  search_from url_pattern prev s = Some m ->
  forall_chars (admits url_pattern) m = true.
Proof.
  revert prev. induction s as [|c s IH]; intros prev; cbn [search_from].
  - destruct (match_atoms url_pattern prev EmptyString) as [n|] eqn:Hm; [|discriminate].
    intros [= <-]. now apply match_atoms_chars in Hm.
  - destruct (match_atoms url_pattern prev (String c s)) as [n|] eqn:Hm.
    + intros [= <-]. now apply match_atoms_chars in Hm.
    + apply IH.
Qed.

(** The second structural check of [validate_url] never rejects anything and
    its error ("Invalid URL structure") is never raised: whatever the pattern
    finds is returned, as it stands when it begins with a lower-case
    [http://] or [https://], and with [https://] put before it otherwise.
    The validator fails only when the input is not an absolute URL and the
    pattern finds nothing. *)
Theorem validate_url_outcome (input_text : string) :
  validate_url input_text =
  if has_scheme_and_netloc (urlparse input_text) then Ok input_text
  else match search url_pattern input_text with
       | Some m =>
           Ok (if (startswith m "http://" || startswith m "https://")%bool then m
               else ("https://" ++ m)%string)
       | None => Raise (ValueError "Invalid input. Please provide a valid URL.")
       end.
Proof.
  unfold validate_url. destruct (has_scheme_and_netloc _); [reflexivity|].
  destruct (search url_pattern input_text) as [m|] eqn:Hs; [|reflexivity].
  apply search_from_chars in Hs.
  assert (Hm : forall_chars no_bracket m = true)
    by (revert Hs; apply forall_chars_impl, url_pattern_no_bracket).
  assert (Hu : forall_chars no_bracket
                 (if (startswith m "http://" || startswith m "https://")%bool then m
                  else ("https://" ++ m)%string) = true).
  { destruct (_ || _)%bool; [exact Hm|]. rewrite forall_chars_app, Hm. reflexivity. }
  destruct (urlparse_no_bracket _ Hu) as [p Hp]. now rewrite Hp.
Qed.

End Validator_more.

Section Validator_scheme.
Import PyStr Py Url NewsSummarizer Pattern.

(** The matched text itself begins with the scheme. *)
Lemma url_pattern_match_taken (prev : option ascii) (s : string) (n : nat) :
  match_atoms url_pattern prev s = Some n ->
  (ci_prefix "http://" (take n s) || ci_prefix "https://" (take n s))%bool = true.
Proof.
  unfold url_pattern. intros H.
  apply match_lit in H as (x1 & s1 & n1 & -> & E1 & H & ->).
  apply match_lit in H as (x2 & s2 & n2 & -> & E2 & H & ->).
  apply match_lit in H as (x3 & s3 & n3 & -> & E3 & H & ->).
  apply match_lit in H as (x4 & s4 & n4 & -> & E4 & H & ->).
  cbn [take ci_prefix]. rewrite E1, E2, E3, E4. cbn [andb].
  apply match_opt in H as [[Hs (m & H & ->)]|H].
  - destruct s4 as [|x5 s5]; [discriminate|]. cbn [ci_prefix] in Hs.
    rewrite andb_true_r in Hs. cbn [String.length drop char_before] in H.
    apply match_lit in H as (x6 & s6 & n6 & -> & E6 & H & ->).
    apply match_lit in H as (x7 & s7 & n7 & -> & E7 & H & ->).
    apply match_lit in H as (x8 & s8 & n8 & -> & E8 & H & ->).
    cbn [String.length Nat.add take ci_prefix]. rewrite Hs, E6, E7, E8. cbn. apply orb_true_r.
  - apply match_lit in H as (x6 & s6 & n6 & -> & E6 & H & ->).
    apply match_lit in H as (x7 & s7 & n7 & -> & E7 & H & ->).
    apply match_lit in H as (x8 & s8 & n8 & -> & E8 & H & ->).
    cbn [take ci_prefix]. now rewrite E6, E7, E8.
Qed.

Lemma search_from_taken (prev : option ascii) (s m : string) :
  search_from url_pattern prev s = Some m ->
  (ci_prefix "http://" m || ci_prefix "https://" m)%bool = true.
Proof.
  revert prev. induction s as [|c s IH]; intros prev; cbn [search_from].
  - destruct (match_atoms url_pattern prev EmptyString) as [n|] eqn:Hm; [|discriminate].
    intros [= <-]. now apply url_pattern_match_taken in Hm.
  - destruct (match_atoms url_pattern prev (String c s)) as [n|] eqn:Hm.
    + intros [= <-]. now apply url_pattern_match_taken in Hm.
    + apply IH.
Qed.

(** A URL in prose whose scheme is not written in lower case comes back with
    a second scheme in front: the text found already begins with [http://]
    or [https://] in some letter case, and [https://] is prepended to it. *)
Theorem uppercase_scheme_is_doubled (input_text m : string) :
  has_scheme_and_netloc (urlparse input_text) = false ->
  search url_pattern input_text = Some m ->
  startswith m "http://" = false ->
  startswith m "https://" = false ->
  validate_url input_text = Ok ("https://" ++ m)%string
  /\ (ci_prefix "http://" m || ci_prefix "https://" m)%bool = true.
Proof.
  intros Hparse Hs H1 H2. split; [|now apply search_from_taken in Hs].
  unfold validate_url. rewrite Hparse, Hs, H1, H2. cbn [orb].
  apply search_from_chars in Hs.
  assert (Hu : forall_chars no_bracket ("https://" ++ m) = true).
  { rewrite forall_chars_app. apply andb_true_iff. split; [reflexivity|].
    revert Hs. apply forall_chars_impl, url_pattern_no_bracket. }
  destruct (urlparse_no_bracket _ Hu) as [p Hp]. now rewrite Hp.
Qed.

Lemma uppercase_scheme_is_doubled_here :
  validate_url "see HTTP://Example.com/News today"
    = Ok ("https://" ++ "HTTP://Example.com/News")%string
  /\ (ci_prefix "http://" "HTTP://Example.com/News"
      || ci_prefix "https://" "HTTP://Example.com/News")%bool = true.
Proof.
  apply uppercase_scheme_is_doubled; vm_compute; reflexivity.
Defined.

End Validator_scheme.

(** ** The endpoints *)

Section Endpoints.
Import PyStr Py Dom Url World NewsSummarizer Trace Scenario Main Cases.

(** [process_article] returns a dictionary; without the key [error] it is a
    success with a string under [summary]. *)
Lemma process_article_result (self : self_t) (w : world) (input_text : string) :
  exists d,
    snd (process_article self w input_text) = Ok d
    /\ (get "error" d = None ->
        exists s l i, d = [("summary", Str s); ("link", Str l); ("image", i)]).
Proof.
  unfold process_article, process_article_try.
  destruct (extract_article_content self w input_text 2900) as [evs [d0|e]] eqn:Hex;
    cbn [snd bind try_except].
  - unfold extract_article_content in Hex.
    apply attempts_ok_cases in Hex as [->|(doc & img & url' & ->)].
    + eexists. split; [reflexivity|]. discriminate.
    + cbn [has_key get String.eqb Ascii.eqb Bool.eqb getitem bind format_value].
      destruct (summarize_text_ok self w (clean_text (_extract_content doc) 2900) 400 800)
        as [s Hs].
      rewrite Hs. cbn [bind try_except get_or_none get String.eqb Ascii.eqb Bool.eqb].
      eexists. split; [reflexivity|]. intros _. now do 3 eexists.
  - destruct (is_ValueError e); eexists; (split; [reflexivity|]); discriminate.
Qed.

Lemma find_one_nonempty (db : collection) (u : string) (d : dict) :
  find_one db u = Some d -> d <> [].
Proof.
  unfold find_one. intros H. apply find_some in H as [_ H]. now destruct d.
Qed.

Lemma find_one_none (db : collection) (u : string) :
  find_one db u = None <-> ~ In u (urls db).
Proof.
  unfold find_one, urls. induction db as [|d db IH]; cbn [find flat_map].
  - split; [intros _ []|reflexivity].
  - unfold has_url at 1. destruct (get "url" d) as [[v|]|] eqn:Hg.
    + destruct (String.eqb_spec v u) as [->|Hne].
      * split; [discriminate|]. intros H. elim H. now left.
      * rewrite IH. cbn. split; [intros H [E|Hin]; [congruence|now apply H]|].
        intros H Hin. apply H. now right.
    + rewrite IH. reflexivity.
    + rewrite IH. reflexivity.
Qed.

Lemma urls_app (db1 db2 : collection) : urls (db1 ++ db2) = urls db1 ++ urls db2.
Proof. unfold urls. apply flat_map_app. Qed.

Ltac http_400 :=
  left; do 2 eexists; split; [reflexivity|]; split; [left; reflexivity|reflexivity].
Ltac http_500 :=
  left; do 2 eexists; split; [reflexivity|]; split; [right; reflexivity|reflexivity].

(** The ways [save_article] can end, with the store it leaves. *)
Lemma save_article_cases (e : env) (w : world) (db : collection) (u : string) :
  let '(evs, db', out) := save_article e w db u in
  (exists code detail, out = HTTPException code detail
                       /\ (code = 400%Z \/ code = 500%Z) /\ db' = db)
  \/ (exists s i,
        out = Respond (mk_article u s i u)
        /\ find_one db u = None
        /\ db' = db ++ [[("url", Str u); ("summary", Str s);
                         ("image", of_option i); ("link", Str u)]]).
Proof.
  unfold save_article, save_article_try.
  destruct (find_one_fault e) as [f|]; [http_500|].
  destruct (find_one db u) as [[|kv d0]|] eqn:Hfind;
    [now apply find_one_nonempty in Hfind|http_400|].
  destruct (summarizer_of e) as [self|ex];
    [|destruct (is_ValueError ex); http_500].
  destruct (process_article_result self w u) as (d & Hd & Hshape).
  destruct (process_article self w u) as [evs r]. cbn [snd] in Hd. subst r.
  destruct d as [|kv d]; [http_400|].
  destruct (get "error" (kv :: d)) as [err|] eqn:Herr; [http_400|].
  destruct (Hshape eq_refl) as (s & l & i & E). rewrite E.
  destruct (insert_one_fault e) as [[msg|ex]|]; [http_500|http_500|].
  right. cbn. exists s. destruct i as [i|]; [exists (Some i)|exists None]; now repeat split.
Qed.

(** [save_article] answers with the stored article or with status 400 or
    500: every exception is turned into an [HTTPException], and the answers
    504 and 422 of its handlers never occur, because [process_article] never
    raises. *)
Theorem save_article_answers (e : env) (w : world) (db : collection) (u : string) :
  match snd (save_article e w db u) with
  | Respond a => url a = u /\ link a = u
  | HTTPException code _ => code = 400%Z \/ code = 500%Z
  | Uncaught _ => False
  end.
Proof.
  pose proof (save_article_cases e w db u) as H.
  destruct (save_article e w db u) as [[evs db'] out]. cbn [snd].
  destruct H as [(code & detail & -> & Hc & _)|(s & i & -> & _ & _)]; [exact Hc|now split].
Qed.

(** The store changes only when the article is answered: then exactly one
    document is appended, holding the URL (also as [link]), the summary and
    the image of the answer, and the URL was not stored before.  In every
    other case the store is left as it was. *)
Theorem save_article_store_effect (e : env) (w : world) (db : collection) (u : string) :
  let '(evs, db', out) := save_article e w db u in
  match out with
  | Respond a =>
      db' = db ++ [[("url", Str u); ("summary", Str (summary a));
                    ("image", of_option (image a)); ("link", Str u)]]
      /\ find_one db u = None
  | _ => db' = db
  end.
Proof.
  pose proof (save_article_cases e w db u) as H.
  destruct (save_article e w db u) as [[evs db'] out].
  destruct H as [(code & detail & -> & _ & ->)|(s & i & -> & Hf & ->)];
    [reflexivity|now split].
Qed.

(** Stored URLs stay pairwise distinct. *)
Theorem save_article_keeps_urls_distinct (e : env) (w : world) (db : collection)
        (u : string) :
  NoDup (urls db) -> NoDup (urls (snd (fst (save_article e w db u)))).
Proof.
  intros Hnd. pose proof (save_article_cases e w db u) as H.
  destruct (save_article e w db u) as [[evs db'] out]. cbn [fst snd].
  destruct H as [(code & detail & _ & _ & ->)|(s & i & _ & Hf & ->)]; [exact Hnd|].
  rewrite urls_app. cbn. apply NoDup_app; [exact Hnd|repeat constructor; intros []|].
  intros x Hx [<-|[]]. now apply find_one_none in Hf.
Qed.

Lemma save_article_keeps_urls_distinct_here :
  NoDup (urls (snd (fst (save_article healthy_env
                           (world_of (Ok page_with_article) (reply "A summary."))
                           [stored "https://example.com/b" "Earlier."] article_url)))).
Proof.
  apply save_article_keeps_urls_distinct.
  vm_compute. repeat constructor. intros [].
Defined.

Lemma delete_one_absent (db : collection) (u : string) :
  find_one db u = None -> delete_one db u = (db, 0%Z).
Proof.
  unfold find_one. induction db as [|d db IH]; [reflexivity|]. cbn [find delete_one].
  destruct (has_url u d); [discriminate|]. intros H. now rewrite (IH H).
Qed.

Lemma delete_one_appended (db : collection) (u : string) (d : dict) :
  find_one db u = None -> has_url u d = true -> delete_one (db ++ [d]) u = (db, 1%Z).
Proof.
  unfold find_one. intros Hf Hd. induction db as [|d0 db IH]; cbn [app delete_one find] in *.
  - now rewrite Hd.
  - destruct (has_url u d0); [discriminate|]. now rewrite (IH Hf).
Qed.

(** Saving and then deleting the same URL succeeds and leaves the store as
    it was before the save. *)
Theorem save_then_delete (e e' : env) (w : world) (db db' : collection) (u : string)
        (evs : list event) (a : ArticleModel) :
  save_article e w db u = (evs, db', Respond a) ->
  delete_one_fault e' = None ->
  delete_article e' db' u
  = (db, Respond [("message", Str "Article deleted successfully.")]).
Proof.
  intros Hsave Hfault. pose proof (save_article_cases e w db u) as H.
  rewrite Hsave in H.
  destruct H as [(code & detail & Ho & _)|(s & i & _ & Hf & ->)]; [discriminate|].
  unfold delete_article. rewrite Hfault, (delete_one_appended db u _ Hf).
  - reflexivity.
  - unfold has_url. cbn. apply String.eqb_refl.
Qed.

Lemma save_then_delete_here :
  delete_article healthy_env
    [stored "https://example.com/b" "Earlier.";
     [("url", Str article_url); ("summary", Str "A summary."); ("image", None_);
      ("link", Str article_url)]]
    article_url
  = ([stored "https://example.com/b" "Earlier."],
     Respond [("message", Str "Article deleted successfully.")]).
Proof.
  apply (save_then_delete healthy_env healthy_env
           (world_of (Ok page_with_article) (reply "A summary."))
           [stored "https://example.com/b" "Earlier."] _ article_url
           [GET article_url 30] (mk_article article_url "A summary." None article_url)).
  - vm_compute; reflexivity.
  - reflexivity.
Defined.

Lemma find_one_delete_other (db : collection) (u u' : string) :
  u' <> u -> find_one (fst (delete_one db u)) u' = find_one db u'.
Proof.
  intros Hne. unfold find_one. induction db as [|d db IH]; [reflexivity|].
  cbn [delete_one find]. destruct (has_url u d) eqn:Hu.
  - cbn [fst]. destruct (has_url u' d) eqn:Hu'; [|reflexivity].
    unfold has_url in Hu, Hu'. destruct (get "url" d) as [[v|]|]; try discriminate.
    apply String.eqb_eq in Hu, Hu'. congruence.
  - destruct (delete_one db u) as [rest n]. cbn [fst find] in *.
    destruct (has_url u' d); [reflexivity|exact IH].
Qed.

Lemma urls_has_url (d : dict) (u : string) :
  has_url u d = true -> get "url" d = Some (Str u).
Proof.
  unfold has_url. destruct (get "url" d) as [[v|]|]; try discriminate.
  intros H. apply String.eqb_eq in H. now subst.
Qed.

Lemma find_one_delete_same (db : collection) (u : string) :
  NoDup (urls db) -> find_one (fst (delete_one db u)) u = None.
Proof.
  induction db as [|d db IH]; [reflexivity|]. intros Hnd.
  cbn [delete_one]. destruct (has_url u d) eqn:Hu.
  - cbn [fst]. apply find_one_none. apply urls_has_url in Hu.
    unfold urls in Hnd. cbn [flat_map] in Hnd. rewrite Hu in Hnd.
    now inversion Hnd.
  - assert (Hnd' : NoDup (urls db)).
    { unfold urls in Hnd |- *. cbn [flat_map] in Hnd.
      now apply NoDup_app_remove_l in Hnd. }
    specialize (IH Hnd'). destruct (delete_one db u) as [rest n]. cbn [fst] in *.
    unfold find_one in *. cbn [find]. now rewrite Hu.
Qed.

(** Deleting a URL that is not stored answers 404 and changes nothing;
    deleting never disturbs the lookup of another URL; and with distinct
    stored URLs the deleted URL is no longer found. *)
Theorem delete_article_effect (e : env) (db : collection) (u : string) :
  (delete_one_fault e = None -> find_one db u = None ->
     delete_article e db u = (db, HTTPException 404 "Article not found."))
  /\ (forall u', u' <> u ->
        find_one (fst (delete_article e db u)) u' = find_one db u')
  /\ (delete_one_fault e = None -> NoDup (urls db) ->
        find_one (fst (delete_article e db u)) u = None).
Proof.
  unfold delete_article. repeat split.
  - intros -> Hf. now rewrite (delete_one_absent db u Hf).
  - intros u' Hne. destruct (delete_one_fault e) as [[msg|ex]|]; [reflexivity|reflexivity|].
    pose proof (find_one_delete_other db u u' Hne) as H.
    destruct (delete_one db u) as [rest n]. cbn [fst] in H.
    now destruct (Z.eqb n 0).
  - intros -> Hnd. pose proof (find_one_delete_same db u Hnd) as H.
    destruct (delete_one db u) as [rest n]. cbn [fst] in H.
    now destruct (Z.eqb n 0).
Qed.

(** A URL already stored, or a missing API key, ends the request before
    anything is fetched: no event, the store untouched, status 400 for the
    duplicate and 500 for the key. *)
Theorem save_article_rejects_before_fetch (e : env) (w : world) (db : collection)
        (u : string) :
  find_one_fault e = None ->
  (forall d, find_one db u = Some d ->
     save_article e w db u
     = ([], db, HTTPException 400 "Article with this URL already exists."))
  /\ (find_one db u = None ->
      GROK_API_KEY e = None \/ GROK_API_KEY e = Some EmptyString ->
      save_article e w db u
      = ([], db, HTTPException 500
                   "Failed to initialize summarizer: API key is required.")).
Proof.
  intros Hfault. unfold save_article, save_article_try. rewrite Hfault. split.
  - intros d Hd. rewrite Hd. pose proof (find_one_nonempty _ _ _ Hd).
    destruct d; [congruence|reflexivity].
  - intros -> Hkey. unfold summarizer_of. now destruct Hkey as [-> | ->].
Qed.

Lemma save_article_rejects_before_fetch_here :
  save_article healthy_env (world_of (Ok page_with_article) (reply "A summary."))
    [stored article_url "Earlier."] article_url
  = ([], [stored article_url "Earlier."],
     HTTPException 400 "Article with this URL already exists.")
  /\ save_article keyless_env (world_of (Ok page_with_article) (reply "A summary."))
       [] article_url
     = ([], [], HTTPException 500 "Failed to initialize summarizer: API key is required.").
Proof.
  split.
  - apply (proj1 (save_article_rejects_before_fetch healthy_env
                    (world_of (Ok page_with_article) (reply "A summary."))
                    [stored article_url "Earlier."] article_url eq_refl)
                 (stored article_url "Earlier.")).
    reflexivity.
  - apply (proj2 (save_article_rejects_before_fetch keyless_env
                    (world_of (Ok page_with_article) (reply "A summary."))
                    [] article_url eq_refl)).
    + reflexivity.
    + now left.
Defined.

(** A failed completion call is stored as if it were a summary: the request
    is answered with the article, and the document appended to the store
    carries the error text in its [summary] field. *)
Theorem save_article_stores_error_summary (e : env) (w : world) (db : collection)
        (u u' key : string) (doc : soup) (img : option string) (ex : exn) :
  GROK_API_KEY e = Some key -> key <> EmptyString ->
  find_one_fault e = None -> insert_one_fault e = None ->
  find_one db u = None ->
  validate_url u = Ok u' ->
  http_get w 0 u' = Ok doc ->
  main_image w u' doc = Ok img ->
  _extract_content doc <> [] ->
  completions_create w
    (summarize_request (mk_self default_model_name 30 3 2)
                       (clean_text (_extract_content doc) 2900) 800) = Raise ex ->
  save_article e w db u
  = ([GET u' 30],
     db ++ [[("url", Str u);
             ("summary", Str ("Error generating summary: " ++ exn_msg ex));
             ("image", of_option img); ("link", Str u)]],
     Respond (mk_article u ("Error generating summary: " ++ exn_msg ex) img u)).
Proof.
  intros Hkey Hne Hff Hif Hfind Hv Hget Himg Hc Hcall.
  unfold save_article, save_article_try, summarizer_of, __init__.
  rewrite Hff, Hfind, Hkey, Hif.
  destruct key as [|c key]; [congruence|]. cbn [is_empty].
  unfold process_article, process_article_try, extract_article_content.
  cbn [max_retries]. change (Z.to_nat 3) with 3. cbn [attempts].
  unfold loop_pass, try_body. rewrite Hv, Hget, Himg.
  destruct (_extract_content doc) as [|t ts] eqn:Hd; [congruence|].
  cbn [request_timeout bind has_key get String.eqb Ascii.eqb Bool.eqb getitem format_value].
  unfold summarize_text. rewrite Hcall.
  cbn. destruct img; reflexivity.
Qed.

Lemma save_article_stores_error_summary_here :
  save_article healthy_env (world_of (Ok page_with_article) (Raise rate_limited))
    [] article_url
  = ([GET article_url 30],
     [] ++ [[("url", Str article_url);
             ("summary", Str ("Error generating summary: " ++ exn_msg rate_limited));
             ("image", of_option None); ("link", Str article_url)]],
     Respond (mk_article article_url
                ("Error generating summary: " ++ exn_msg rate_limited) None article_url)).
Proof.
  apply (save_article_stores_error_summary healthy_env
           (world_of (Ok page_with_article) (Raise rate_limited)) [] article_url
           article_url "gsk-key" page_with_article None rate_limited);
    try reflexivity; try (vm_compute; reflexivity).
  - discriminate.
  - vm_compute. discriminate.
Defined.

End Endpoints.
